(** * jirahub: a shallow embedding of the synchronisation engine
    (jirahub/jirahub.py), the region isolator (jirahub/utils.py) and the
    fence handling of the two markup formatters (jirahub/github.py,
    jirahub/jira.py), with the properties of its specification. *)

From Stdlib Require Import ZArith Lia Ascii String.
From stdpp Require Import base list gmap sets strings pretty.

Open Scope Z_scope.

(* ------------------------------------------------------------------ *)
(** ** Text and regular expressions *)

Module Rx.

(** Python [str] values are sequences of code points. *)
Definition text := list Z.

(** ASCII literal to code points. *)
Definition txt (s : string) : text :=
  map (fun a => Z.of_nat (nat_of_ascii a)) (list_ascii_of_string s).

(** [s[a:b]] *)
Definition slice (t : text) (a b : nat) : text := take (b - a) (drop a t).

(** A compiled pattern, as [re.Pattern] uses it: [rx_match t i] lists the
    end positions of the matches that start at [i], in the order in which
    the backtracking matcher tries them (the first one is the match that
    [re.match(t, i)] returns). Every end lies between [i] and [len(t)]. *)
Record regex := {
  rx_match : text -> nat -> list nat;
  rx_bounds : forall t i e, In e (rx_match t i) -> (i <= e <= length t)%nat
}.

(** [pattern.search(t, pos)]: leftmost start [>= pos], first alternative. *)
Fixpoint search_aux (r : regex) (t : text) (i k : nat) : option (nat * nat) :=
  match k with
  | O => None
  | S k' =>
      match rx_match r t i with
      | e :: _ => Some (i, e)
      | [] => search_aux r t (S i) k'
      end
  end.

Definition search (r : regex) (t : text) (pos : nat) : option (nat * nat) :=
  search_aux r t pos (S (length t - pos)).

(** The scanner behind [finditer]: after an empty match the next search
    starts at the same position with [must_advance] set, so it cannot
    return an empty match there (sre's [must_advance]). *)
Definition first_end (adv : bool) (i pos : nat) (es : list nat) : option nat :=
  if adv && Nat.eqb i pos then head (List.filter (fun e => negb (Nat.eqb e pos)) es)
  else head es.

Fixpoint search_adv_aux (r : regex) (t : text) (pos i k : nat) (adv : bool)
  : option (nat * nat) :=
  match k with
  | O => None
  | S k' =>
      match first_end adv i pos (rx_match r t i) with
      | Some e => Some (i, e)
      | None => search_adv_aux r t pos (S i) k' adv
      end
  end.

Definition search_adv (r : regex) (t : text) (pos : nat) (adv : bool) :=
  search_adv_aux r t pos pos (S (length t - pos)) adv.

Fixpoint finditer_aux (r : regex) (t : text) (pos : nat) (adv : bool) (fuel : nat)
  : list (nat * nat) :=
  match fuel with
  | O => []
  | S f =>
      match search_adv r t pos adv with
      | Some (s, e) => (s, e) :: finditer_aux r t e (Nat.eqb s e) f
      | None => []
      end
  end.

(** Every step either moves past the previous end or sets [must_advance],
    so [2 * len + 2] rounds exhaust the scan. *)
Definition finditer (r : regex) (t : text) : list (nat * nat) :=
  finditer_aux r t 0 false (2 * length t + 2).

(** A literal pattern (no metacharacters). *)
Fixpoint prefixb (p t : text) : bool :=
  match p, t with
  | [], _ => true
  | a :: p', b :: t' => Z.eqb a b && prefixb p' t'
  | _ :: _, [] => false
  end.

Lemma prefixb_length p t : prefixb p t = true -> (length p <= length t)%nat.
Proof.
  revert t; induction p as [|a p IH]; intros [|b t] H; simpl in *; try lia; try discriminate.
  apply andb_prop in H as [_ H]. apply IH in H. lia.
Qed.

Definition lit_match (p : text) (t : text) (i : nat) : list nat :=
  if Nat.leb i (length t) && prefixb p (drop i t) then [(i + length p)%nat] else [].

Lemma lit_bounds p : forall t i e, In e (lit_match p t i) -> (i <= e <= length t)%nat.
Proof.
  intros t i e H. unfold lit_match in H.
  destruct (Nat.leb i (length t)) eqn:L; simpl in H; [|contradiction].
  apply Nat.leb_le in L.
  destruct (prefixb p (drop i t)) eqn:E; simpl in H; [|contradiction].
  destruct H as [<-|[]]. apply prefixb_length in E. rewrite length_drop in E. lia.
Qed.

Definition literal (p : text) : regex := {| rx_match := lit_match p; rx_bounds := lit_bounds p |}.

(** [p in t] for a literal [p]. *)
Definition contains (p t : text) : bool :=
  existsb (fun j => prefixb p (drop j t)) (seq 0 (S (length t))).

End Rx.

(* ------------------------------------------------------------------ *)
(** ** [IssueSync.redact_text] *)

Module Redact.
Import Rx.

(** U+2588 FULL BLOCK *)
Definition block : Z := 9608.

(** [text[:m.start()] + "█" * (m.end() - m.start()) + text[m.end():]] *)
Definition blank_span (acc : text) (m : nat * nat) : text :=
  let '(s, e) := m in take s acc ++ replicate (e - s) block ++ drop e acc.

(** The inner loop: [finditer] runs over the text as it was when the loop
    started, while the replacements are applied to the running text. *)
Definition redact_one (r : regex) (t : text) : text :=
  fold_left blank_span (finditer r t) t.

(** [for regex in redact_regexes: ...] *)
Definition redact_text (regexes : list regex) (t : text) : text :=
  fold_left (fun acc r => redact_one r acc) regexes t.

End Redact.

(* ------------------------------------------------------------------ *)
(** ** [utils.isolate_regions] *)

Module Regions.
Import Rx.

(** A region is [(content, formatted)]. *)
Definition region : Type := text * bool.

(** The match object handed to the handler: [start()], [end()] and the
    searched string (groups are read back from it). *)
Record rmatch := { m_start : nat; m_end : nat; m_string : text }.

Definition m_text (m : rmatch) : text := slice (m_string m) (m_start m) (m_end m).

(** A content handler returns a region, or raises ([None]). *)
Definition handler := text -> rmatch -> option region.

(** The [while current_index < len(content)] loop on one formatted region.
    [None]: the call does not return normally, either because the handler
    raised or because [current_index] did not advance, in which case the
    loop repeats the same state forever. Each productive round advances
    [current_index], so [len(content) + 1] rounds suffice. *)
Fixpoint scan (open_re close_re : regex) (h : handler) (content : text)
    (current_index : nat) (fuel : nat) : option (list region) :=
  match fuel with
  | O => None
  | S f =>
      if Nat.ltb current_index (length content) then
        match search open_re content current_index with
        | Some (os, oe) =>
            let before :=
              if Nat.ltb current_index os
              then [(slice content current_index os, true)] else [] in
            let start_index := oe in
            let close_match := search close_re content start_index in
            let end_index :=
              match close_match with Some (cs, _) => cs | None => length content end in
            match h (slice content start_index end_index)
                    {| m_start := os; m_end := oe; m_string := content |} with
            | Some reg =>
                let next_index :=
                  match close_match with Some (_, ce) => ce | None => length content end in
                if Nat.ltb current_index next_index then
                  match scan open_re close_re h content next_index f with
                  | Some rest => Some (before ++ reg :: rest)
                  | None => None
                  end
                else None
            | None => None
            end
        | None => Some [(drop current_index content, true)]
        end
      else Some []
  end.

Definition isolate_region (open_re close_re : regex) (h : handler) (r : region)
  : option (list region) :=
  let '(content, formatted) := r in
  if negb formatted then Some [(content, formatted)]
  else scan open_re close_re h content 0 (S (length content)).

Fixpoint isolate_regions (regions : list region) (open_re close_re : regex)
    (h : handler) : option (list region) :=
  match regions with
  | [] => Some []
  | r :: rs =>
      match isolate_region open_re close_re h r, isolate_regions rs open_re close_re h with
      | Some a, Some b => Some (a ++ b)
      | _, _ => None
      end
  end.

(** The scan of [scan] seen as a split of the region's text: plain pieces
    and fenced spans (open match, inner text, close match or nothing). *)
Inductive segment :=
| Plain (t : text)
| Fenced (inner : text) (m : rmatch) (close : text).

Definition seg_text (g : segment) : text :=
  match g with Plain t => t | Fenced inner m cl => m_text m ++ inner ++ cl end.

Fixpoint segments (open_re close_re : regex) (content : text) (current_index : nat) (fuel : nat)
  : option (list segment) :=
  match fuel with
  | O => None
  | S f =>
      if Nat.ltb current_index (length content) then
        match search open_re content current_index with
        | Some (os, oe) =>
            let before :=
              if Nat.ltb current_index os
              then [Plain (slice content current_index os)] else [] in
            let close_match := search close_re content oe in
            let end_index :=
              match close_match with Some (cs, _) => cs | None => length content end in
            let next_index :=
              match close_match with Some (_, ce) => ce | None => length content end in
            let g := Fenced (slice content oe end_index)
                            {| m_start := os; m_end := oe; m_string := content |}
                            (slice content end_index next_index) in
            if Nat.ltb current_index next_index then
              match segments open_re close_re content next_index f with
              | Some rest => Some (before ++ g :: rest)
              | None => None
              end
            else None
        | None => Some [Plain (drop current_index content)]
        end
      else Some []
  end.

(** What each segment becomes in the output. *)
Fixpoint render_segments (h : handler) (gs : list segment) : option (list region) :=
  match gs with
  | [] => Some []
  | Plain t :: gs' => option_map (fun rs => (t, true) :: rs) (render_segments h gs')
  | Fenced inner m _ :: gs' =>
      match h inner m, render_segments h gs' with
      | Some r, Some rs => Some (r :: rs)
      | _, _ => None
      end
  end.

Definition plain_nonempty (g : segment) : Prop :=
  match g with Plain t => t <> [] | Fenced _ _ _ => True end.

End Regions.

(* ------------------------------------------------------------------ *)
(** ** Fence handling of the two formatters *)

Module Markup.
Import Rx Regions.

Definition c_nl : Z := 10.
Definition c_colon : Z := 58.
Definition c_rbrace : Z := 125.


(** [str.isspace] *)
Definition is_space (c : Z) : bool :=
  ((9 <=? c) && (c <=? 13)) || ((28 <=? c) && (c <=? 32)) || (c =? 133) || (c =? 160)
  || (c =? 5760) || ((8192 <=? c) && (c <=? 8202)) || (c =? 8232) || (c =? 8233)
  || (c =? 8239) || (c =? 8287) || (c =? 12288).

Definition nth_char (t : text) (k : nat) : Z := nth k t (-1).

(** Ends for [.*?\}] started at position [k] of the remaining text [u]:
    the lazy [.*?] grows one non-newline character at a time. *)
Fixpoint brace_ends (u : text) (k : nat) : list nat :=
  match u with
  | [] => []
  | c :: u' =>
      if Z.eqb c c_nl then []
      else (if Z.eqb c c_rbrace then [S k] else []) ++ brace_ends u' (S k)
  end.

Lemma brace_ends_bounds u : forall k e, In e (brace_ends u k) -> (k < e <= k + length u)%nat.
Proof.
  induction u as [|c u IH]; intros k e H; simpl in H; [contradiction|].
  destruct (Z.eqb c c_nl); [contradiction|].
  apply in_app_or in H as [H|H].
  - destruct (Z.eqb c c_rbrace); simpl in H; [destruct H as [<-|[]]|contradiction]. simpl; lia.
  - apply IH in H. simpl; lia.
Qed.

(** GitHub formatter, [CODE_OPEN_RE = \{code(:(.*?))?\}]: the optional
    group is tried first, then the bare [\}]. *)
Definition code_open_match (t : text) (i : nat) : list nat :=
  if Nat.leb i (length t) && prefixb (txt "{code") (drop i t) then
    (if Z.eqb (nth_char t (i + 5)) c_colon then brace_ends (drop (i + 6) t) (i + 6) else [])
    ++ (if Z.eqb (nth_char t (i + 5)) c_rbrace then [(i + 6)%nat] else [])
  else [].

Lemma nth_char_lt t k : nth_char t k <> -1 -> (k < length t)%nat.
Proof.
  unfold nth_char. intros H. destruct (Nat.lt_ge_cases k (length t)) as [|L]; [assumption|].
  rewrite nth_overflow in H by exact L. congruence.
Qed.

Lemma code_open_bounds : forall t i e, In e (code_open_match t i) -> (i <= e <= length t)%nat.
Proof.
  intros t i e H. unfold code_open_match in H.
  destruct (Nat.leb i (length t) && prefixb (txt "{code") (drop i t)) eqn:P; [|contradiction].
  apply andb_prop in P as [_ P]. apply prefixb_length in P.
  rewrite length_drop in P. simpl in P.
  apply in_app_or in H as [H|H].
  - destruct (Z.eqb (nth_char t (i + 5)) c_colon) eqn:C; [|contradiction].
    apply brace_ends_bounds in H. rewrite length_drop in H.
    apply Z.eqb_eq in C. assert (nth_char t (i + 5) <> -1) by (rewrite C; discriminate).
    apply nth_char_lt in H0. lia.
  - destruct (Z.eqb (nth_char t (i + 5)) c_rbrace) eqn:C; [|contradiction].
    destruct H as [<-|[]].
    apply Z.eqb_eq in C. assert (nth_char t (i + 5) <> -1) by (rewrite C; discriminate).
    apply nth_char_lt in H. lia.
Qed.

Definition CODE_OPEN_RE : regex := {| rx_match := code_open_match; rx_bounds := code_open_bounds |}.
Definition CODE_CLOSE_RE : regex := literal (txt "{code}").
Definition NOFORMAT_RE : regex := literal (txt "{noformat}").
Definition QUOTE_RE : regex := literal (txt "{quote}").






(** [str.split("\n")] *)
Fixpoint split_nl (t : text) : list text :=
  match t with
  | [] => [[]]
  | c :: t' =>
      if Z.eqb c c_nl then [] :: split_nl t'
      else match split_nl t' with
           | l :: ls => (c :: l) :: ls
           | [] => [[c]]
           end
  end.

(** [not line.strip()] *)
Definition blank (l : text) : bool := forallb is_space l.

Fixpoint join_nl (ls : list text) : text :=
  match ls with
  | [] => []
  | [l] => l
  | l :: ls' => l ++ [c_nl] ++ join_nl ls'
  end.

(** [github.Formatter._handle_noformat_content] *)
Definition gh_handle_noformat_content (content : text) (_ : rmatch) : option region :=
  if Nat.ltb 0 (length content) then Some (txt "```" ++ content ++ txt "```", false)
  else Some ([], false).

(** [open_match.group(2)] of [CODE_OPEN_RE]: present when the match has
    the [:] branch. *)
Definition code_language (m : rmatch) : text :=
  let t := m_text m in
  if Z.eqb (nth_char t 5) c_colon then slice t 6 (length t - 1) else [].

(** [github.Formatter._handle_code_content] *)
Definition gh_handle_code_content (content : text) (m : rmatch) : option region :=
  let language := code_language m in
  if Nat.ltb 0 (length content) then Some (txt "```" ++ language ++ content ++ txt "```", false)
  else Some ([], false).

(** [github.Formatter._handle_quoted_content]; [lines[-1]] on an empty
    list raises [IndexError]. *)
Definition gh_handle_quoted_content (content : text) (_ : rmatch) : option region :=
  if Nat.ltb 0 (length content) then
    let lines := split_nl content in
    let lines := match lines with l :: ls => if blank l then ls else lines | [] => [] end in
    match last lines with
    | None => None
    | Some l =>
        let lines := if blank l then removelast lines else lines in
        Some ([c_nl] ++ join_nl (map (fun l => txt "> " ++ l) lines) ++ [c_nl], true)
    end
  else Some ([], false).


(** The final loop of [format_body]: formatted regions go through
    [_format_content], the table of textual substitutions. *)
Definition render (format_content : text -> text) (rs : list region) : text :=
  concat (map (fun r : region => if r.2 then format_content r.1 else r.1) rs).

(** [github.Formatter.format_body] *)
Definition gh_format_body (format_content : text -> text) (body : text) : option text :=
  match isolate_regions [(body, true)] CODE_OPEN_RE CODE_CLOSE_RE gh_handle_code_content with
  | None => None
  | Some rs1 =>
      match isolate_regions rs1 NOFORMAT_RE NOFORMAT_RE gh_handle_noformat_content with
      | None => None
      | Some rs2 =>
          match isolate_regions rs2 QUOTE_RE QUOTE_RE gh_handle_quoted_content with
          | None => None
          | Some rs3 => Some (render format_content rs3)
          end
      end
  end.


End Markup.

(* ------------------------------------------------------------------ *)
(** ** Entities (jirahub/entities.py) and configuration (jirahub/config.py) *)

Module Engine.
Import Rx.

Inductive source := JIRA | GITHUB.

#[global] Instance source_eq_dec : EqDecision source.
Proof. solve_decision. Defined.

(** [Source.other] *)
Definition other (s : source) : source :=
  match s with JIRA => GITHUB | GITHUB => JIRA end.

(** [str(source)] *)
Definition source_str (s : source) : text :=
  match s with JIRA => txt "JIRA" | GITHUB => txt "GitHub" end.

Record user := { u_source : source; username : string; display_name : text }.

(** Issue and comment ids are modelled as naturals; [if x.mirror_id] is
    Python truthiness, false on [None] and on [0]. *)
Definition truthy_id (o : option nat) : bool :=
  match o with Some (S _) => true | _ => false end.

Definition truthy_str (o : option string) : bool :=
  match o with Some "" | None => false | Some _ => true end.

(** [Comment.metadata]: the keys [mirror_id], [body_hash],
    [is_tracking_comment]; an absent key is [None]. *)
Record comment_metadata := {
  cm_mirror_id : option nat;
  cm_body_hash : option text;
  cm_is_tracking_comment : option bool
}.

(** [Comment.issue_metadata]: [mirror_id], [mirror_project]. *)
Record link_metadata := { lm_mirror_id : option nat; lm_mirror_project : option string }.

Record comment := {
  c_source : source;
  comment_id : nat;
  c_user : user;
  c_is_bot : bool;
  c_body : text;
  c_metadata : comment_metadata;
  c_issue_metadata : link_metadata
}.

(** [Issue.metadata]: [mirror_id], [mirror_project], [body_hash], [title_hash]. *)
Record issue_metadata := {
  im_mirror_id : option nat;
  im_mirror_project : option string;
  im_body_hash : option text;
  im_title_hash : option text
}.

Record issue := {
  i_source : source;
  i_is_bot : bool;
  issue_id : nat;
  project : string;
  created_at : nat;
  updated_at : nat;
  i_user : user;
  title : text;
  is_open : bool;
  body : text;
  labels : gset string;
  priority : option string;
  issue_type : option string;
  milestones : gset string;
  components : gset string;
  comments : list comment;
  i_metadata : issue_metadata;
  github_repository : option string;
  github_issue_id : option nat
}.

Definition empty_issue_metadata : issue_metadata := Build_issue_metadata None None None None.
Definition empty_link_metadata : link_metadata := Build_link_metadata None None.

(** [Comment.is_tracking_comment] *)
Definition is_tracking_comment (c : comment) : bool :=
  match cm_is_tracking_comment (c_metadata c) with Some true => true | _ => false end.

(** [Comment.mirror_id] *)
Definition c_mirror_id (c : comment) : option nat := cm_mirror_id (c_metadata c).

(** [Issue.tracking_comment] *)
Definition tracking_comment (i : issue) : option comment :=
  find is_tracking_comment (comments i).

(** [Issue._get_metadata(MIRROR_ID)] *)
Definition mirror_id (i : issue) : option nat :=
  match im_mirror_id (i_metadata i) with
  | Some v => Some v
  | None =>
      match tracking_comment i with
      | Some c => lm_mirror_id (c_issue_metadata c)
      | None => None
      end
  end.

(** [Issue._get_metadata(MIRROR_PROJECT)] *)
Definition mirror_project (i : issue) : option string :=
  match im_mirror_project (i_metadata i) with
  | Some v => Some v
  | None =>
      match tracking_comment i with
      | Some c => lm_mirror_project (c_issue_metadata c)
      | None => None
      end
  end.

Inductive SyncFeature := CREATE_ISSUES | SYNC_COMMENTS | SYNC_STATUS | SYNC_LABELS | SYNC_MILESTONES.

Record SyncConfig := {
  create_issues : bool;
  sync_comments_enabled : bool;
  sync_status : bool;
  sync_labels : bool;
  sync_milestones : bool;
  sync_label_set : gset string;   (** [labels] *)
  redact_regexes : list regex
}.

Record FilterConfig := {
  min_created_at : option nat;
  include_issue_types : gset string;
  exclude_issue_types : gset string;
  include_components : gset string;
  exclude_components : gset string;
  include_labels : gset string;
  exclude_labels : gset string;
  open_only : bool
}.

(** [FilterConfig()] *)
Definition default_filter : FilterConfig :=
  {| min_created_at := None; include_issue_types := ∅; exclude_issue_types := ∅;
     include_components := ∅; exclude_components := ∅; include_labels := ∅;
     exclude_labels := ∅; open_only := true |}.

Record DefaultsConfig := {
  default_issue_type : option string;
  default_priority : option string;
  default_components : gset string
}.

Record SourceConfig := { sync : SyncConfig; filter_config : FilterConfig; defaults : DefaultsConfig }.

(** [config.jira.github_repository_field] and [github_issue_id_field] only
    matter through their truthiness. *)
Record Config := {
  jira : SourceConfig;
  github : SourceConfig;
  jira_project_key : string;
  github_repository_name : string;   (** [config.github.repository] *)
  github_repository_field : bool;
  github_issue_id_field : bool
}.

(** [Config.get_source_config] *)
Definition get_source_config (cfg : Config) (s : source) : SourceConfig :=
  match s with JIRA => jira cfg | GITHUB => github cfg end.

(** [Config.is_enabled] *)
Definition is_enabled (cfg : Config) (s : source) (f : SyncFeature) : bool :=
  let sc := sync (get_source_config cfg s) in
  match f with
  | CREATE_ISSUES => create_issues sc
  | SYNC_COMMENTS => sync_comments_enabled sc
  | SYNC_STATUS => sync_status sc
  | SYNC_LABELS => sync_labels sc
  | SYNC_MILESTONES => sync_milestones sc
  end.

(** [IssueSync.get_project] *)
Definition get_project (cfg : Config) (s : source) : string :=
  match s with JIRA => jira_project_key cfg | GITHUB => github_repository_name cfg end.

(** [_IssueFilter.accept] *)
Definition accept (fc : FilterConfig) (i : issue) : bool :=
  if open_only fc && negb (is_open i) then false
  else if (match min_created_at fc with Some m => Nat.ltb (created_at i) m | None => false end)
  then false
  else if negb (bool_decide (include_issue_types fc = ∅))
          && negb (match issue_type i with
                   | Some t => bool_decide (t ∈ include_issue_types fc) | None => false end)
  then false
  else if negb (bool_decide (exclude_issue_types fc = ∅))
          && (match issue_type i with
              | Some t => bool_decide (t ∈ exclude_issue_types fc) | None => false end)
  then false
  else if negb (bool_decide (include_components fc = ∅))
          && bool_decide (include_components fc ∩ components i = ∅)
  then false
  else if negb (bool_decide (exclude_components fc = ∅))
          && negb (bool_decide (exclude_components fc ∩ components i = ∅))
  then false
  else if negb (bool_decide (include_labels fc = ∅))
          && bool_decide (include_labels fc ∩ labels i = ∅)
  then false
  else if negb (bool_decide (exclude_labels fc = ∅))
          && negb (bool_decide (exclude_labels fc ∩ labels i = ∅))
  then false
  else true.

(** [IssueSync.accept_issue] *)
Definition accept_issue (cfg : Config) (s : source) (i : issue) : bool :=
  accept (filter_config (get_source_config cfg s)) i.

End Engine.

(* ------------------------------------------------------------------ *)
(** ** The two services, as the test suite's [MockClient] (tests/mocks.py)
    behaves: each service keeps its list of issues, [now()] is a clock
    that advances on every write, and every mutating call is recorded. *)

Module Service.
Import Rx Engine.

Inductive call :=
| CreateIssue (s : source)
| UpdateIssue (s : source) (id : nat)
| CreateComment (s : source) (id : nat)
| UpdateComment (s : source) (cid : nat)
| DeleteComment (s : source) (cid : nat).

Record svc := {
  jira_issues : list issue;
  github_issues : list issue;
  clock : nat;
  next_id : nat;
  calls : list call
}.

Definition store (s : source) (st : svc) : list issue :=
  match s with JIRA => jira_issues st | GITHUB => github_issues st end.

(** Replace the store of [s], advance the clock and the id counter, log [c]. *)
Definition write (s : source) (l : list issue) (c : call) (st : svc) : svc :=
  {| jira_issues := if bool_decide (s = JIRA) then l else jira_issues st;
     github_issues := if bool_decide (s = GITHUB) then l else github_issues st;
     clock := S (clock st); next_id := S (next_id st); calls := calls st ++ [c] |}.

(** Effects: state passing over the services, [None] when the call raises. *)
Definition M (A : Type) : Type := svc -> svc * option A.

Definition ret {A} (a : A) : M A := fun st => (st, Some a).
Definition bind {A B} (m : M A) (k : A -> M B) : M B :=
  fun st => match m st with
            | (st', Some a) => k a st'
            | (st', None) => (st', None)
            end.
Definition raise {A} : M A := fun st => (st, None).
Definition lift {A} (o : option A) : M A := match o with Some a => ret a | None => raise end.

(** [try: ... except Exception: logger.exception(...)]: effects performed
    before the exception stay. *)
Definition try_ {A} (m : M A) : M (option A) :=
  fun st => let '(st', r) := m st in (st', Some r).

Notation "x <- m ;; k" := (bind m (fun x => k)) (at level 100, m at next level, right associativity).

(** [find_issues(min_updated_at)] *)
Definition find_issues (s : source) (min_updated_at : option nat) : M (list issue) :=
  fun st => (st, Some (List.filter (fun i => match min_updated_at with
                                    | None => true
                                    | Some m => Nat.leb m (updated_at i) end) (store s st))).

(** [get_issue(issue_id)]: raises on a missing id. *)
Definition get_issue (s : source) (id : nat) : M issue :=
  fun st => (st, find (fun i => Nat.eqb (issue_id i) id) (store s st)).

(** The dict of fields [make_mirror_issue] builds; absent keys are [None]. *)
Record issue_fields := {
  f_title : text;
  f_body : text;
  f_issue_type : option string;
  f_priority : option string;
  f_components : option (gset string);
  f_labels : option (gset string);
  f_milestones : option (gset string);
  f_metadata : issue_metadata;
  f_github_repository : option string;
  f_github_issue_id : option nat
}.

(** The update dict of [make_issue_updates]; absent keys are [None]. *)
Record updates := {
  u_title : option text;
  u_body : option text;
  u_metadata : option issue_metadata;
  u_is_open : option bool;
  u_milestones : option (gset string);
  u_labels : option (gset string);
  u_github_repository : option string;
  u_github_issue_id : option nat
}.

Definition isSome {A} (o : option A) : bool := match o with Some _ => true | None => false end.

Definition no_updates : updates := Build_updates None None None None None None None None.

(** [if updates:] *)
Definition nonempty (u : updates) : bool :=
  isSome (u_title u) || isSome (u_body u) || isSome (u_metadata u) || isSome (u_is_open u)
  || isSome (u_milestones u) || isSome (u_labels u) || isSome (u_github_repository u)
  || isSome (u_github_issue_id u).

Record comment_fields := {
  cf_body : text;
  cf_metadata : comment_metadata;
  cf_issue_metadata : link_metadata
}.

Definition set_default (d : gset string) (o : option (gset string)) : gset string :=
  match o with Some x => x | None => d end.

(** [create_issue(fields)]: a bot-owned issue in the configured project;
    building the [Issue] fails without a (truthy) title. The github
    repository/issue id keys go to the Jira custom fields. *)
Definition create_issue (project_of : source -> string) (bot : source -> user)
    (s : source) (f : issue_fields) : M issue :=
  match f_title f with
  | [] => raise
  | _ =>
      fun st =>
        let i := {| i_source := s; i_is_bot := true; issue_id := next_id st;
                    project := project_of s; created_at := clock st; updated_at := clock st;
                    i_user := bot s; title := f_title f; is_open := true; body := f_body f;
                    labels := set_default ∅ (f_labels f);
                    priority := if truthy_str (f_priority f) then f_priority f else None;
                    issue_type := if truthy_str (f_issue_type f) then f_issue_type f else None;
                    milestones := set_default ∅ (f_milestones f);
                    components := set_default ∅ (f_components f);
                    comments := []; i_metadata := f_metadata f;
                    github_repository := f_github_repository f;
                    github_issue_id := f_github_issue_id f |} in
        (write s (store s st ++ [i]) (CreateIssue s) st, Some i)
  end.

(** The new snapshot [update_issue] builds from the passed one. *)
Definition apply_updates (i : issue) (u : updates) (now : nat) : option issue :=
  let new_title := match u_title u with None => Some (title i) | Some [] => None | Some t => Some t end in
  match new_title with
  | None => None
  | Some t =>
      Some {| i_source := i_source i; i_is_bot := i_is_bot i; issue_id := issue_id i;
              project := project i; created_at := created_at i; updated_at := now;
              i_user := i_user i; title := t;
              is_open := match u_is_open u with Some b => b | None => is_open i end;
              body := match u_body u with Some b => b | None => body i end;
              labels := set_default (labels i) (u_labels u);
              priority := priority i; issue_type := issue_type i;
              milestones := set_default (milestones i) (u_milestones u);
              components := components i; comments := comments i;
              i_metadata := match u_metadata u with Some m => m | None => i_metadata i end;
              github_repository :=
                match u_github_repository u with Some r => Some r | None => github_repository i end;
              github_issue_id :=
                match u_github_issue_id u with Some n => Some n | None => github_issue_id i end |}
  end.

(** [update_issue(issue, fields)]: refuses title/body on a human issue;
    the updated copy replaces the issue in the store. *)
Definition update_issue (s : source) (i : issue) (u : updates) : M issue :=
  if (isSome (u_title u) || isSome (u_body u)) && negb (i_is_bot i) then raise
  else fun st =>
    match apply_updates i u (clock st) with
    | None => (st, None)
    | Some i' =>
        (write s (List.filter (fun j => negb (Nat.eqb (issue_id j) (issue_id i))) (store s st) ++ [i'])
           (UpdateIssue s (issue_id i)) st, Some i')
    end.

Definition map_issue (id : nat) (f : list comment -> list comment) (l : list issue) : list issue :=
  map (fun j => if Nat.eqb (issue_id j) id then
                  {| i_source := i_source j; i_is_bot := i_is_bot j; issue_id := issue_id j;
                     project := project j; created_at := created_at j; updated_at := updated_at j;
                     i_user := i_user j; title := title j; is_open := is_open j; body := body j;
                     labels := labels j; priority := priority j; issue_type := issue_type j;
                     milestones := milestones j; components := components j;
                     comments := f (comments j); i_metadata := i_metadata j;
                     github_repository := github_repository j;
                     github_issue_id := github_issue_id j |}
                else j) l.

(** [create_comment(issue, fields)]: the comment list is shared between the
    snapshot and the stored issue, so the comment lands on the stored one. *)
Definition create_comment (bot : source -> user) (s : source) (i : issue) (f : comment_fields)
  : M comment :=
  fun st =>
    let c := {| c_source := s; comment_id := next_id st; c_user := bot s; c_is_bot := true;
                c_body := cf_body f; c_metadata := cf_metadata f;
                c_issue_metadata := cf_issue_metadata f |} in
    (write s (map_issue (issue_id i) (fun cs => cs ++ [c]) (store s st))
       (CreateComment s (issue_id i)) st, Some c).

Definition owner (s : source) (c : comment) (st : svc) : option issue :=
  find (fun j => existsb (fun d => Nat.eqb (comment_id d) (comment_id c)) (comments j)) (store s st).

Definition without (c : comment) (cs : list comment) : list comment :=
  List.filter (fun d => negb (Nat.eqb (comment_id d) (comment_id c))) cs.

(** [update_comment(comment, {"body": ...})]: only bot comments; the new
    copy is appended to its issue's comments. *)
Definition update_comment (s : source) (c : comment) (new_body : text) : M unit :=
  if negb (c_is_bot c) then raise
  else fun st =>
    match owner s c st with
    | None => (st, None)
    | Some j =>
        let c' := {| c_source := c_source c; comment_id := comment_id c; c_user := c_user c;
                     c_is_bot := c_is_bot c; c_body := new_body; c_metadata := c_metadata c;
                     c_issue_metadata := c_issue_metadata c |} in
        (write s (map_issue (issue_id j) (fun cs => without c cs ++ [c']) (store s st))
           (UpdateComment s (comment_id c)) st, Some tt)
    end.

(** [delete_comment(comment)] *)
Definition delete_comment (s : source) (c : comment) : M unit :=
  if negb (c_is_bot c) then raise
  else fun st =>
    match owner s c st with
    | None => (st, None)
    | Some j =>
        (write s (map_issue (issue_id j) (without c) (store s st))
           (DeleteComment s (comment_id c)) st, Some tt)
    end.

End Service.

(* ------------------------------------------------------------------ *)
(** ** [IssueSync] (jirahub/jirahub.py) *)

Module Sync.
Import Rx Engine Service.

(** Collaborators the engine calls but whose text the properties do not
    depend on: [_hash_string] (md5 hex digest), the two formatters'
    [format_link] and [format_body] (indexed by the formatter's target
    source; [format_body] may raise), the [UrlHelper] and the bot user of
    each service. *)
Class Externals := {
  hash_string : text -> text;
  format_link : source -> text -> text -> text;
  format_body : source -> text -> option text;
  user_profile_url : user -> text;
  issue_url : source -> nat -> text;
  comment_url : source -> nat -> nat -> text;
  bot_user : source -> user
}.

Notation "x <- m ;; k" := (bind m (fun x => k)) (at level 100, m at next level, right associativity).

Definition id_text (n : nat) : text := txt (pretty (N.of_nat n)).

Definition crlf2 : text := [13; 10; 13; 10].

Section IssueSync.
Context `{Externals}.
Variable cfg : Config.
Variable dry_run : bool.

Definition sync_feature_enabled (s : source) (f : SyncFeature) : bool := is_enabled cfg s f.

(** [Issue.body_hash], [Issue.title_hash], [Comment.body_hash]; a bot-owned
    item reads its metadata, where a missing key raises [KeyError]. *)
Definition body_hash (i : issue) : option text :=
  if i_is_bot i then im_body_hash (i_metadata i) else Some (hash_string (body i)).
Definition title_hash (i : issue) : option text :=
  if i_is_bot i then im_title_hash (i_metadata i) else Some (hash_string (title i)).
Definition comment_body_hash (c : comment) : option text :=
  if c_is_bot c then cm_body_hash (c_metadata c) else Some (hash_string (c_body c)).

(** [IssueSync.redact_text] *)
Definition redact_text (s : source) (t : text) : text :=
  Redact.redact_text (redact_regexes (sync (get_source_config cfg s))) t.

(** [IssueSync.make_mirror_issue_title] *)
Definition make_mirror_issue_title (src : issue) : text :=
  redact_text (other (i_source src)) (title src).

Definition issue_link_text (i : issue) : text :=
  match i_source i with JIRA => id_text (issue_id i) | GITHUB => txt "#" ++ id_text (issue_id i) end.

(** [IssueSync.make_mirror_issue_body] *)
Definition make_mirror_issue_body (src : issue) : option text :=
  let ms := other (i_source src) in
  let user_link := format_link ms (user_profile_url (i_user src)) (display_name (i_user src)) in
  let issue_link := format_link ms (issue_url (i_source src) (issue_id src)) (issue_link_text src) in
  match format_body ms (redact_text ms (body src)) with
  | None => None
  | Some b =>
      Some (txt "_Issue " ++ issue_link ++ txt " was created on " ++ source_str (i_source src)
            ++ txt " by " ++ user_link ++ txt ":_" ++ crlf2 ++ b)
  end.

(** [IssueSync.make_mirror_comment_body] *)
Definition make_mirror_comment_body (src : issue) (c : comment) : option text :=
  let ms := other (c_source c) in
  let user_link := format_link ms (user_profile_url (c_user c)) (display_name (c_user c)) in
  let comment_link := format_link ms (comment_url (c_source c) (issue_id src) (comment_id c))
                                  (source_str (i_source src)) in
  match format_body ms (redact_text ms (c_body c)) with
  | None => None
  | Some b => Some (txt "_Comment by " ++ user_link ++ txt " on " ++ comment_link ++ txt ":_"
                    ++ crlf2 ++ b)
  end.

(** [IssueSync.make_tracking_comment_body] *)
Definition make_tracking_comment_body (mirror : issue) : text :=
  let link := format_link (other (i_source mirror)) (issue_url (i_source mirror) (issue_id mirror))
                          (issue_link_text mirror) in
  txt "_Tracked on " ++ source_str (i_source mirror) ++ txt " as issue " ++ link ++ txt "._".

(** [IssueSync._make_field_updates]: the value written into each side's
    update dict under the field's key, if any. *)
Definition make_field_updates {A} (eqb : A -> A -> bool) (get : issue -> A)
    (one two : issue) (f : SyncFeature) : option A * option A :=
  let one_enabled := sync_feature_enabled (i_source one) f in
  let two_enabled := sync_feature_enabled (i_source two) f in
  if one_enabled || two_enabled then
    let one_value := get one in
    let two_value := get two in
    if negb (eqb one_value two_value) then
      if one_enabled && two_enabled then
        if Nat.ltb (updated_at two) (updated_at one) then (None, Some one_value)
        else (Some two_value, None)
      else if one_enabled then (Some two_value, None)
      else if two_enabled then (None, Some one_value)
      else (None, None)
    else (None, None)
  else (None, None).

Definition set_eqb (a b : gset string) : bool := bool_decide (a = b).

(** [IssueSync._make_labels_updates] *)
Definition make_labels_updates (one two : issue) : option (gset string) * option (gset string) :=
  let one_enabled := sync_feature_enabled (i_source one) SYNC_LABELS in
  let two_enabled := sync_feature_enabled (i_source two) SYNC_LABELS in
  let one_sync_labels := sync_label_set (sync (get_source_config cfg (i_source one))) in
  let two_sync_labels := sync_label_set (sync (get_source_config cfg (i_source two))) in
  let one_labels := labels one ∖ one_sync_labels in
  let two_labels := labels two ∖ two_sync_labels in
  let '(one_labels, two_labels) :=
    if one_enabled && two_enabled then
      if Nat.ltb (updated_at two) (updated_at one) then (one_labels, one_labels)
      else (two_labels, two_labels)
    else if one_enabled then (two_labels, two_labels)
    else if two_enabled then (one_labels, one_labels)
    else (one_labels, two_labels) in
  let one_labels := one_labels ∪ one_sync_labels in
  let two_labels := two_labels ∪ two_sync_labels in
  (if set_eqb (labels one) one_labels then None else Some one_labels,
   if set_eqb (labels two) two_labels then None else Some two_labels).

Definition set_title_hash (m : issue_metadata) (h : text) : issue_metadata :=
  {| im_mirror_id := im_mirror_id m; im_mirror_project := im_mirror_project m;
     im_body_hash := im_body_hash m; im_title_hash := Some h |}.
Definition set_body_hash (m : issue_metadata) (h : text) : issue_metadata :=
  {| im_mirror_id := im_mirror_id m; im_mirror_project := im_mirror_project m;
     im_body_hash := Some h; im_title_hash := im_title_hash m |}.

(** The title/body part of [make_issue_updates], for the bot-owned mirror:
    [(title, body, metadata)] entries of the mirror's update dict. *)
Definition mirror_content_updates (src mirror : issue)
  : option (option text * option text * option issue_metadata) :=
  match title_hash mirror, title_hash src with
  | Some mt, Some st =>
      let '(t_upd, meta) :=
        if bool_decide (mt = st) then (None, None)
        else (Some (make_mirror_issue_title src), Some (set_title_hash (i_metadata mirror) st)) in
      match body_hash mirror, body_hash src with
      | Some mb, Some sb =>
          if bool_decide (mb = sb) then Some (t_upd, None, meta)
          else match make_mirror_issue_body src with
               | None => None
               | Some b =>
                   let base := match meta with Some m => m | None => i_metadata mirror end in
                   Some (t_upd, Some b, Some (set_body_hash base sb))
               end
      | _, _ => None
      end
  | _, _ => None
  end.

Definition with_content (u : updates) (c : option text * option text * option issue_metadata)
  : updates :=
  let '(t, b, m) := c in
  {| u_title := t; u_body := b; u_metadata := m; u_is_open := u_is_open u;
     u_milestones := u_milestones u; u_labels := u_labels u;
     u_github_repository := u_github_repository u; u_github_issue_id := u_github_issue_id u |}.

Definition with_fields (u : updates) (o : option bool) (ms ls : option (gset string)) : updates :=
  {| u_title := u_title u; u_body := u_body u; u_metadata := u_metadata u;
     u_is_open := match o with Some _ => o | None => u_is_open u end;
     u_milestones := match ms with Some _ => ms | None => u_milestones u end;
     u_labels := match ls with Some _ => ls | None => u_labels u end;
     u_github_repository := u_github_repository u; u_github_issue_id := u_github_issue_id u |}.

Definition with_links (u : updates) (r : option string) (n : option nat) : updates :=
  {| u_title := u_title u; u_body := u_body u; u_metadata := u_metadata u;
     u_is_open := u_is_open u; u_milestones := u_milestones u; u_labels := u_labels u;
     u_github_repository := match r with Some _ => r | None => u_github_repository u end;
     u_github_issue_id := match n with Some _ => n | None => u_github_issue_id u end |}.

(** [IssueSync.make_issue_updates]; [None] when it raises. *)
Definition make_issue_updates (one two : issue) : option (updates * updates) :=
  let content :=
    if i_is_bot one || i_is_bot two then
      if i_is_bot one then
        option_map (fun c => (with_content no_updates c, no_updates)) (mirror_content_updates two one)
      else
        option_map (fun c => (no_updates, with_content no_updates c)) (mirror_content_updates one two)
    else Some (no_updates, no_updates) in
  match content with
  | None => None
  | Some (one_u, two_u) =>
      let '(o1, o2) := make_field_updates Bool.eqb is_open one two SYNC_STATUS in
      let '(m1, m2) := make_field_updates set_eqb milestones one two SYNC_MILESTONES in
      let '(l1, l2) := make_labels_updates one two in
      let one_u := with_fields one_u o1 m1 l1 in
      let two_u := with_fields two_u o2 m2 l2 in
      let '(jira_issue, github_issue, jira_is_one) :=
        if bool_decide (i_source one = JIRA) then (one, two, true) else (two, one, false) in
      let r := if github_repository_field cfg
               then if bool_decide (github_repository jira_issue = Some (github_repository_name cfg))
                    then None else Some (github_repository_name cfg)
               else None in
      let n := if github_issue_id_field cfg
               then if bool_decide (github_issue_id jira_issue = Some (issue_id github_issue))
                    then None else Some (issue_id github_issue)
               else None in
      if jira_is_one then Some (with_links one_u r n, two_u)
      else Some (one_u, with_links two_u r n)
  end.

(** [IssueSync.make_mirror_issue] *)
Definition make_mirror_issue (src : issue) : option issue_fields :=
  let ms := other (i_source src) in
  let mc := get_source_config cfg ms in
  let lbls := if sync_feature_enabled ms SYNC_LABELS then Some (labels src) else None in
  let sync_lbls := sync_label_set (sync mc) in
  let lbls := if bool_decide (sync_lbls = ∅) then lbls
              else Some (set_default ∅ lbls ∪ sync_lbls) in
  match make_mirror_issue_body src, body_hash src, title_hash src with
  | Some b, Some bh, Some th =>
      Some {| f_title := make_mirror_issue_title src;
              f_body := b;
              f_issue_type := if truthy_str (default_issue_type (defaults mc))
                              then default_issue_type (defaults mc) else None;
              f_priority := if truthy_str (default_priority (defaults mc))
                            then default_priority (defaults mc) else None;
              f_components := if bool_decide (default_components (defaults mc) = ∅) then None
                              else Some (default_components (defaults mc));
              f_labels := lbls;
              f_milestones := if sync_feature_enabled ms SYNC_MILESTONES
                              then Some (milestones src) else None;
              f_metadata := {| im_mirror_id := Some (issue_id src);
                               im_mirror_project := Some (project src);
                               im_body_hash := Some bh; im_title_hash := Some th |};
              f_github_repository :=
                if github_repository_field cfg && bool_decide (i_source src = GITHUB)
                then Some (github_repository_name cfg) else None;
              f_github_issue_id :=
                if github_issue_id_field cfg && bool_decide (i_source src = GITHUB)
                then Some (issue_id src) else None |}
  | _, _, _ => None
  end.

(** [IssueSync._create_tracking_comment] *)
Definition create_tracking_comment (src mirror : issue) : M unit :=
  let fields := {| cf_body := make_tracking_comment_body mirror;
                   cf_metadata := {| cm_mirror_id := None; cm_body_hash := None;
                                     cm_is_tracking_comment := Some true |};
                   cf_issue_metadata := {| lm_mirror_id := Some (issue_id mirror);
                                           lm_mirror_project := Some (project mirror) |} |} in
  if dry_run then ret tt
  else _ <- create_comment bot_user (i_source src) src fields ;; ret tt.

(** [IssueSync.make_mirror_comment] *)
Definition make_mirror_comment (src : issue) (c : comment) : option comment_fields :=
  match make_mirror_comment_body src c, comment_body_hash c with
  | Some b, Some h =>
      Some {| cf_body := b;
              cf_metadata := {| cm_mirror_id := Some (comment_id c); cm_body_hash := Some h;
                                cm_is_tracking_comment := None |};
              cf_issue_metadata := empty_link_metadata |}
  | _, _ => None
  end.

(** One round of the loop of [sync_comments]; [by_id] and [by_mirror_id]
    are the two dict comprehensions (a later entry overwrites an earlier
    one with the same key). *)
Definition sync_one_comment (by_id : nat -> option comment) (by_mirror_id : nat -> option comment)
    (iss : issue) (c : comment) (oth : issue) : M unit :=
  if c_is_bot c then
    let source_comment := match c_mirror_id c with Some k => by_id k | None => None end in
    if negb (isSome source_comment) && sync_feature_enabled (c_source c) SYNC_COMMENTS then
      if dry_run then ret tt else delete_comment (c_source c) c
    else ret tt
  else
    match by_mirror_id (comment_id c) with
    | Some mc =>
        if sync_feature_enabled (c_source mc) SYNC_COMMENTS then
          mh <- lift (comment_body_hash mc) ;;
          ch <- lift (comment_body_hash c) ;;
          if bool_decide (mh = ch) then ret tt
          else b <- lift (make_mirror_comment_body iss c) ;;
               if dry_run then ret tt else update_comment (i_source oth) mc b
        else ret tt
    | None =>
        if sync_feature_enabled (i_source oth) SYNC_COMMENTS then
          f <- lift (make_mirror_comment iss c) ;;
          if dry_run then ret tt
          else _ <- create_comment bot_user (i_source oth) oth f ;; ret tt
        else ret tt
    end.

Fixpoint run_each (f : issue * comment * issue -> M unit) (l : list (issue * comment * issue))
  : M unit :=
  match l with
  | [] => ret tt
  | x :: l' => _ <- try_ (f x) ;; run_each f l'
  end.

(** [IssueSync.sync_comments] *)
Definition sync_comments (one two : issue) : M unit :=
  if negb (sync_feature_enabled (i_source one) SYNC_COMMENTS)
     && negb (sync_feature_enabled (i_source two) SYNC_COMMENTS) then ret tt
  else
    let one_cs := map (fun c => (one, c, two))
                      (List.filter (fun c => negb (is_tracking_comment c)) (comments one)) in
    let two_cs := map (fun c => (two, c, one))
                      (List.filter (fun c => negb (is_tracking_comment c)) (comments two)) in
    let all := one_cs ++ two_cs in
    let cs := map (fun x => x.1.2) all in
    let by_id k := find (fun c => Nat.eqb (comment_id c) k) (rev cs) in
    let by_mirror_id k :=
      find (fun c => c_is_bot c && bool_decide (c_mirror_id c = Some k)) (rev cs) in
    run_each (fun x => let '(iss, c, oth) := x in sync_one_comment by_id by_mirror_id iss c oth) all.

(** [IssueSync._perform_sync_issue]; [None] in the result is Python's
    [None]. *)
Definition perform_sync_issue (u : issue) : M (option issue) :=
  let other_source := other (i_source u) in
  if truthy_id (mirror_id u) || truthy_id (github_issue_id u) then
    other_issue <-
      (if truthy_id (mirror_id u) then
         if bool_decide (mirror_project u = Some (get_project cfg other_source)) then
           match mirror_id u with
           | Some id => oi <- get_issue other_source id ;; ret (Some oi)
           | None => ret None
           end
         else ret None
       else if bool_decide (i_source u = JIRA) then
         if github_repository_field cfg
            && negb (bool_decide (github_repository u = Some (github_repository_name cfg)))
         then ret None
         else match github_issue_id u with
              | Some id => oi <- get_issue other_source id ;; ret (Some oi)
              | None => ret None
              end
       else raise) ;;
    match other_issue with
    | None => ret None
    | Some oi =>
        ups <- lift (make_issue_updates u oi) ;;
        let '(uu, ou) := ups in
        _ <- (if nonempty uu && negb dry_run then _ <- update_issue (i_source u) u uu ;; ret tt
              else ret tt) ;;
        _ <- (if nonempty ou && negb dry_run then _ <- update_issue (i_source oi) oi ou ;; ret tt
              else ret tt) ;;
        _ <- (if negb (i_is_bot u) && negb (isSome (tracking_comment u))
              then create_tracking_comment u oi else ret tt) ;;
        _ <- (if negb (i_is_bot oi) && negb (isSome (tracking_comment oi))
              then create_tracking_comment oi u else ret tt) ;;
        _ <- sync_comments u oi ;;
        ret (Some oi)
    end
  else
    if sync_feature_enabled other_source CREATE_ISSUES && accept_issue cfg other_source u then
      fields <- lift (make_mirror_issue u) ;;
      if negb dry_run then
        mi <- create_issue (get_project cfg) bot_user other_source fields ;;
        _ <- create_tracking_comment u mi ;;
        ups <- lift (make_issue_updates u mi) ;;
        _ <- (if nonempty ups.1 then _ <- update_issue (i_source u) u ups.1 ;; ret tt
              else ret tt) ;;
        _ <- sync_comments u mi ;;
        ret (Some mi)
      else ret None
    else ret None.

Definition key (i : issue) : source * nat := (i_source i, issue_id i).

(** The [for updated_issue in ...] loop of [perform_sync], over one stream:
    the [seen] set and the issues whose processing raised (only logged,
    [logger.exception("Failed syncing %s", ...)]). *)
Fixpoint sync_loop (process : issue -> M (option issue)) (us : list issue)
    (seen logged : list (source * nat)) : M (list (source * nat) * list (source * nat)) :=
  match us with
  | [] => ret (seen, logged)
  | u :: us' =>
      if bool_decide (key u ∈ seen) then sync_loop process us' seen logged
      else
        r <- try_ (process u) ;;
        match r with
        | None => sync_loop process us' seen (logged ++ [key u])
        | Some o =>
            let seen := seen ++ [key u] in
            let seen := match o with Some x => seen ++ [key x] | None => seen end in
            sync_loop process us' seen logged
        end
  end.

(** [IssueSync.perform_sync(min_updated_at)]: the Jira stream, then the
    GitHub stream (started once the first is exhausted); returns [None]. *)
Definition perform_sync (min_updated_at : option nat) : M unit :=
  js <- find_issues JIRA min_updated_at ;;
  r <- sync_loop perform_sync_issue js [] [] ;;
  gs <- find_issues GITHUB min_updated_at ;;
  _ <- sync_loop perform_sync_issue gs r.1 r.2 ;;
  ret tt.

End IssueSync.
End Sync.

(* ------------------------------------------------------------------ *)
(** ** GitHub URLs (jirahub/utils.py) and [github.Formatter.format_link] *)

Module Urls.
Import Rx Markup Engine Sync.

Definition c_slash : Z := 47.

(** [.]: any character but a newline. *)
Definition not_nl (c : Z) : bool := negb (Z.eqb c c_nl).
(** [[^/]] *)
Definition not_slash (c : Z) : bool := negb (Z.eqb c c_slash).
(** [[0-9]] *)
Definition is_digit (c : Z) : bool := (48 <=? c) && (c <=? 57).

(** The longest run of characters satisfying [p] at the head of [u]. *)
Fixpoint run (p : Z -> bool) (u : text) : nat :=
  match u with c :: u' => if p c then S (run p u') else O | [] => O end.

(** The ends a greedy [X*] (resp. [X+]) started at [i] tries, longest first. *)
Definition star_ends (p : Z -> bool) (t : text) (i : nat) : list nat :=
  map (fun n => (i + n)%nat) (rev (seq 0 (S (run p (drop i t))))).
Definition plus_ends (p : Z -> bool) (t : text) (i : nat) : list nat :=
  map (fun n => (i + n)%nat) (rev (seq 1 (run p (drop i t)))).

(** Backtracking: the first alternative whose continuation succeeds. *)
Fixpoint first_some {A} (f : nat -> option A) (l : list nat) : option A :=
  match l with
  | [] => None
  | x :: l' => match f x with Some a => Some a | None => first_some f l' end
  end.

(** A pattern whose only metacharacter is [.]: [Some c] is the character
    [c], [None] an unescaped dot. *)
Fixpoint pat_prefix (p : list (option Z)) (t : text) : bool :=
  match p, t with
  | [], _ => true
  | Some a :: p', b :: t' => Z.eqb a b && pat_prefix p' t'
  | None :: p', b :: t' => not_nl b && pat_prefix p' t'
  | _ :: _, [] => false
  end.

(** [https://github.com/] as the patterns write it: the dot is not escaped. *)
Definition GITHUB_PREFIX : list (option Z) :=
  map Some (txt "https://github") ++ [None] ++ map Some (txt "com/").

(** [$] without [re.MULTILINE]: the end of the string, or before a final newline. *)
Definition dollar (t : text) (e : nat) : bool :=
  Nat.eqb e (length t) || (Nat.eqb (S e) (length t) && Z.eqb (nth_char t e) c_nl).

(** [int(s)] on a string of ASCII digits. *)
Definition dec_value (s : text) : nat :=
  fold_left (fun (acc : nat) (c : Z) => (acc * 10 + Z.to_nat (c - 48))%nat) s O.

(** [make_github_issue_url] *)
Definition make_github_issue_url (github_repository : text) (github_issue_id : nat) : text :=
  txt "https://github.com/" ++ github_repository ++ txt "/issues/" ++ id_text github_issue_id.

(** [_GITHUB_URL_RE.match(url)]: the pattern is [https://github.com/], a
    group [.*], [/issues/] and a group [[0-9]+]; the result is the two groups. *)
Definition github_url_match (t : text) : option (text * text) :=
  if pat_prefix GITHUB_PREFIX t then
    first_some (fun e1 =>
        if prefixb (txt "/issues/") (drop e1 t) then
          first_some (fun e2 => Some (slice t 19 e1, slice t (e1 + 8) e2))
                     (plus_ends is_digit t (e1 + 8))
        else None)
      (star_ends not_nl t 19)
  else None.

(** [extract_github_ids_from_url] *)
Definition extract_github_ids_from_url (github_url : text) : option text * option nat :=
  match github_url_match github_url with
  | Some (g1, g2) => (Some g1, Some (dec_value g2))
  | None => (None, None)
  end.

(** [UrlHelper.get_issue_url(source=..., issue_id=...)] *)
Definition get_issue_url (jira_server github_repository : text) (s : source) (issue_id : nat)
  : text :=
  match s with
  | JIRA => jira_server ++ txt "/browse/" ++ id_text issue_id
  | GITHUB => make_github_issue_url github_repository issue_id
  end.

(** [UrlHelper.get_pull_request_url] *)
Definition get_pull_request_url (github_repository : text) (pull_request_id : nat) : text :=
  txt "https://github.com/" ++ github_repository ++ txt "/pull/" ++ id_text pull_request_id.

(** [^https://github.com/([^/]+/[^/]+)/KIND/([0-9]+)$]: [ISSUE_RE] with
    [KIND = issues], [PR_RE] with [KIND = pull]; groups 1 and 2. *)
Definition repo_number_match (kind : text) (t : text) : option (text * text) :=
  if pat_prefix GITHUB_PREFIX t then
    first_some (fun e1 =>
        if Z.eqb (nth_char t e1) c_slash then
          first_some (fun e2 =>
              if prefixb ([c_slash] ++ kind ++ [c_slash]) (drop e2 t) then
                let k := (e2 + length kind + 2)%nat in
                first_some (fun e3 => if dollar t e3 then Some (slice t 19 e2, slice t k e3)
                                      else None)
                           (plus_ends is_digit t k)
              else None)
            (plus_ends not_slash t (S e1))
        else None)
      (plus_ends not_slash t 19)
  else None.

Definition ISSUE_RE_match (t : text) : option (text * text) := repo_number_match (txt "issues") t.
Definition PR_RE_match (t : text) : option (text * text) := repo_number_match (txt "pull") t.

(** [USER_PROFILE_RE = ^https://github.com/([^/]+)$] *)
Definition user_profile_match (t : text) : option text :=
  if pat_prefix GITHUB_PREFIX t then
    first_some (fun e => if dollar t e then Some (slice t 19 e) else None)
               (plus_ends not_slash t 19)
  else None.

(** [f"#{id}"] or [f"{repository}#{id}"], [id = int(match.group(2))]. *)
Definition short_ref (repository : text) (g : text * text) : text :=
  let '(r, d) := g in
  if bool_decide (r = repository) then txt "#" ++ id_text (dec_value d)
  else r ++ txt "#" ++ id_text (dec_value d).

(** [github.Formatter.format_link(url, link_text)]; [repository] is
    [config.github.repository]. *)
Definition gh_format_link (repository : text) (url : text) (link_text : option text) : text :=
  match link_text with
  | Some ((_ :: _) as lt) => txt "[" ++ lt ++ txt "](" ++ url ++ txt ")"
  | _ =>
      match ISSUE_RE_match url with
      | Some g => short_ref repository g
      | None =>
          match PR_RE_match url with
          | Some g => short_ref repository g
          | None =>
              match user_profile_match url with
              | Some u => txt "@" ++ u
              | None => txt "<" ++ url ++ txt ">"
              end
          end
      end
  end.

End Urls.

(* ------------------------------------------------------------------ *)
(** ** Metadata anchors in Jira texts (jirahub/jira.py) *)

Module JiraMeta.
Import Rx Regions Markup Engine Service Sync.

(** [_ISSUE_METADATA_PREFIX], [_COMMENT_METADATA_PREFIX] and their suffix. *)
Definition ISSUE_METADATA_PREFIX : text := crlf2 ++ txt "{anchor:JIRAHUB-ISSUE-METADATA-1.0.0-".
Definition COMMENT_METADATA_PREFIX : text :=
  crlf2 ++ txt "{anchor:JIRAHUB-COMMENT-METADATA-1.0.0-".
Definition METADATA_SUFFIX : text := txt "}".

(** [re.escape(prefix) + ".*?" + re.escape("}")]: after the prefix, the
    lazy [.*?] grows one non-newline character at a time up to a [}]. *)
Definition metadata_match (prefix : text) (t : text) (i : nat) : list nat :=
  if Nat.leb i (length t) && prefixb prefix (drop i t)
  then brace_ends (drop (i + length prefix) t) (i + length prefix) else [].

Lemma metadata_bounds prefix :
  forall t i e, In e (metadata_match prefix t i) -> (i <= e <= length t)%nat.
Proof.
  intros t i e H. unfold metadata_match in H.
  destruct (Nat.leb i (length t) && prefixb prefix (drop i t)) eqn:P; [|contradiction].
  apply andb_prop in P as [_ P]. apply prefixb_length in P. rewrite length_drop in P.
  apply brace_ends_bounds in H. rewrite length_drop in H. lia.
Qed.

Definition metadata_re (prefix : text) : regex :=
  {| rx_match := metadata_match prefix; rx_bounds := metadata_bounds prefix |}.

(** [base64.b32encode]: the bytes, zero-padded to a multiple of five, cut
    into 40-bit groups of eight 5-bit digits (most significant first); a
    short last group then has its last 6, 4, 3 or 1 digits replaced by [=]. *)
Definition B32_ALPHABET : text := txt "ABCDEFGHIJKLMNOPQRSTUVWXYZ234567".
Definition c_pad : Z := 61.

Definition b32_group (bs : list Z) : text :=
  let c := fold_left (fun acc b => acc * 256 + b) bs 0 in
  map (fun k : nat => nth (Z.to_nat (Z.land (Z.shiftr c (35 - 5 * Z.of_nat k)) 31)) B32_ALPHABET 0)
      (seq 0 8).

Fixpoint b32_groups (n : nat) (bs : list Z) : text :=
  match n with
  | O => []
  | S n' => b32_group (take 5 bs) ++ b32_groups n' (drop 5 bs)
  end.

Definition b32encode (s : list Z) : text :=
  let leftover := (length s mod 5)%nat in
  let s := if Nat.eqb leftover 0 then s else s ++ replicate (5 - leftover) 0 in
  let encoded := b32_groups (length s / 5) s in
  let pad := match leftover with 1 => 6 | 2 => 4 | 3 => 3 | 4 => 1 | _ => 0 end%nat in
  take (length encoded - pad) encoded ++ replicate pad c_pad.

(** [_encode_metadata]; [json] is [json.dumps(metadata).encode("utf-8")]. *)
Definition encode_metadata (json : list Z) (prefix suffix : text) : text :=
  prefix ++ b32encode json ++ suffix.

(** [_decode_metadata] up to [b32decode]: the two asserts, then the base32
    text between prefix and suffix. *)
Definition metadata_base32 (s prefix suffix : text) : option text :=
  if prefixb prefix s && prefixb (rev suffix) (rev s)
  then Some (slice s (length prefix) (length s - length suffix)) else None.

(** [match = RE.search(body)]; if it matches, [_decode_metadata(match.group(0))]
    (here its base32 text) and [body[0:match.start()] + body[match.end():]];
    [None] when an assert fails. *)
Definition take_metadata (prefix : text) (body : text) : option (option text * text) :=
  match search (metadata_re prefix) body 0 with
  | Some (s, e) =>
      match metadata_base32 (slice body s e) prefix METADATA_SUFFIX with
      | Some b => Some (Some b, take s body ++ drop e body)
      | None => None
      end
  | None => Some (None, body)
  end.

(** A metadata dict as [get_raw_issue_fields] and [get_raw_comment_fields]
    see it: [None] for an empty dict (falsy, nothing is appended), [Some j]
    for a non-empty one, [j] being [json.dumps(metadata).encode("utf-8")]. *)
Definition metadata_json := option (list Z).

Definition encode_if (m : metadata_json) (prefix : text) : text :=
  match m with
  | Some j => encode_metadata j prefix METADATA_SUFFIX
  | None => []
  end.

(** The ["description"] of [_IssueTranslator.get_raw_issue_fields]:
    [if metadata: body = body + _encode_issue_metadata(metadata)]. *)
Definition raw_description (body : text) (metadata : metadata_json) : text :=
  body ++ encode_if metadata ISSUE_METADATA_PREFIX.


(** The description part of [_IssueTranslator.get_issue]: the metadata
    (base32 text, [None] for [{}]) and the body. *)
Definition issue_description (description : text) : option (option text * text) :=
  take_metadata ISSUE_METADATA_PREFIX description.


End JiraMeta.

(* ------------------------------------------------------------------ *)
(** ** Auxiliary notions for the properties of the code *)

Module Helpers.
Import Rx Markup Service.

(** No proper suffix of [p] is compatible with the start of [u]. *)
Definition overlap_free (p u : text) : bool :=
  forallb (fun k => negb (prefixb (drop k p) u || prefixb u (drop k p))) (seq 1 (length p - 1)).

(** No suffix of [a] shorter than [p] begins [p]. *)
Definition tail_free (a p : text) : bool :=
  forallb (fun k => negb (bool_decide (drop (length a - k) a = take k p))) (seq 1 (length p - 1)).

(** Computations that leave the services as they are. *)
Definition unchanged {A} (m : M A) : Prop := forall st, fst (m st) = st.

(** One step of [int(s)] on ASCII digits. *)
Definition dec_step (acc : nat) (c : Z) : nat := (acc * 10 + Z.to_nat (c - 48))%nat.

(** Characters that never occur in base32 output. *)
Definition b32_safe (c : Z) : Prop := c <> c_nl /\ c <> c_rbrace /\ c <> 13.

End Helpers.


(* ------------------------------------------------------------------ *)
(** ** Concrete runs: collaborators, a configuration and two services *)

Module Fixtures.
Import Rx Engine Service Sync.
Local Open Scope string_scope.

(** Collaborators that keep texts visible: the hash is the identity, a link
    is its text followed by its URL, the formatter returns its input. *)
#[export] Instance ext0 : Externals := {|
  hash_string := fun t => t;
  format_link := fun _ url t => app t url;
  format_body := fun _ t => Some t;
  user_profile_url := fun u => txt (username u);
  issue_url := fun _ n => id_text n;
  comment_url := fun _ n m => app (id_text n) (id_text m);
  bot_user := fun s => {| u_source := s; username := "bot"; display_name := txt "Bot" |}
|}.

(** Label sync on, everything else off. *)
Definition sc (lbls : gset string) (rxs : list regex) : SyncConfig :=
  {| create_issues := false; sync_comments_enabled := false; sync_status := false;
     sync_labels := true; sync_milestones := false; sync_label_set := lbls;
     redact_regexes := rxs |}.

Definition dc : DefaultsConfig :=
  {| default_issue_type := None; default_priority := None; default_components := ∅ |}.

(** Jira keeps the sticky label ["s"], GitHub has none. *)
Definition cfg0 : Config := {|
  jira := {| sync := sc {["s"]} []; filter_config := default_filter; defaults := dc |};
  github := {| sync := sc ∅ []; filter_config := default_filter; defaults := dc |};
  jira_project_key := "P"; github_repository_name := "org/repo";
  github_repository_field := false; github_issue_id_field := false |}.

(** GitHub redacts with the patterns [b] and then [ab]. *)
Definition cfg_rx : Config := {|
  jira := {| sync := sc ∅ []; filter_config := default_filter; defaults := dc |};
  github := {| sync := sc ∅ [literal (txt "b"); literal (txt "ab")];
               filter_config := default_filter; defaults := dc |};
  jira_project_key := "P"; github_repository_name := "org/repo";
  github_repository_field := false; github_issue_id_field := false |}.

Definition alice : user := {| u_source := JIRA; username := "alice"; display_name := txt "Alice" |}.

(** The tracking comment on the Jira issue, pointing at GitHub issue 10. *)
Definition tc : comment :=
  {| c_source := JIRA; comment_id := 100; c_user := bot_user JIRA; c_is_bot := true;
     c_body := txt "_Tracked_";
     c_metadata := {| cm_mirror_id := None; cm_body_hash := None;
                      cm_is_tracking_comment := Some true |};
     c_issue_metadata := {| lm_mirror_id := Some 10%nat; lm_mirror_project := Some "org/repo" |} |}.

(** A human Jira issue without labels, linked to GitHub issue 10. *)
Definition J : issue :=
  {| i_source := JIRA; i_is_bot := false; issue_id := 1; project := "P"; created_at := 0;
     updated_at := 1; i_user := alice; title := txt "T"; is_open := true; body := txt "B";
     labels := ∅; priority := None; issue_type := None; milestones := ∅; components := ∅;
     comments := [tc]; i_metadata := empty_issue_metadata; github_repository := None;
     github_issue_id := None |}.

(** Its bot-owned GitHub mirror, which carries the label ["s"]. *)
Definition mirror_meta : issue_metadata :=
  {| im_mirror_id := Some 1%nat; im_mirror_project := Some "P";
     im_body_hash := Some (txt "B"); im_title_hash := Some (txt "T") |}.

Definition mk_mirror (t : text) (lbls : gset string) : issue :=
  {| i_source := GITHUB; i_is_bot := true; issue_id := 10; project := "org/repo"; created_at := 0;
     updated_at := 2; i_user := bot_user GITHUB; title := t; is_open := true;
     body := txt "mirror"; labels := lbls; priority := None; issue_type := None;
     milestones := ∅; components := ∅; comments := []; i_metadata := mirror_meta;
     github_repository := None; github_issue_id := None |}.

Definition G : issue := mk_mirror (txt "T") {["s"]}.

(** The same mirror after its title was edited on GitHub. *)
Definition G_edited : issue := mk_mirror (txt "edited") {["s"]}.

(** The same issue, closed and without any link. *)
Definition mk_closed (i : issue) : issue :=
  {| i_source := i_source i; i_is_bot := false; issue_id := issue_id i; project := project i;
     created_at := created_at i; updated_at := updated_at i; i_user := i_user i;
     title := title i; is_open := false; body := body i; labels := labels i;
     priority := priority i; issue_type := issue_type i; milestones := milestones i;
     components := components i; comments := []; i_metadata := empty_issue_metadata;
     github_repository := None; github_issue_id := None |}.

Definition st0 : svc :=
  {| jira_issues := [J]; github_issues := [G]; clock := 3; next_id := 200; calls := [] |}.

(** GitHub no longer has issue 10: following the link raises. *)
Definition st_missing : svc :=
  {| jira_issues := [J]; github_issues := []; clock := 3; next_id := 200; calls := [] |}.

End Fixtures.

(* ------------------------------------------------------------------ *)
(** ** Inputs for the properties of the code *)

Module Scenarios.
Import Rx Engine Service Sync Fixtures.
Local Open Scope string_scope.

(** Like [cfg0], but GitHub mirrors the Jira issues it accepts. *)
Definition cfg_create : Config := {|
  jira := {| sync := sc {["s"]} []; filter_config := default_filter; defaults := dc |};
  github := {| sync := {| create_issues := true; sync_comments_enabled := false;
                          sync_status := false; sync_labels := true; sync_milestones := false;
                          sync_label_set := ∅; redact_regexes := [] |};
               filter_config := default_filter; defaults := dc |};
  jira_project_key := "P"; github_repository_name := "org/repo";
  github_repository_field := false; github_issue_id_field := false |}.

(** A new human Jira issue: open, without comments and without any link. *)
Definition J_new : issue :=
  {| i_source := JIRA; i_is_bot := false; issue_id := 2; project := "P"; created_at := 0;
     updated_at := 1; i_user := alice; title := txt "N"; is_open := true; body := txt "new";
     labels := ∅; priority := None; issue_type := None; milestones := ∅; components := ∅;
     comments := []; i_metadata := empty_issue_metadata; github_repository := None;
     github_issue_id := None |}.

(** The UTF-8 bytes of the JSON text [{"a": 1}]. *)
Definition json_a1 : list Z := [123; 34; 97; 34; 58; 32; 49; 125].

End Scenarios.


(* ------------------------------------------------------------------ *)
(** ** The last-writer-wins rule as the specification words it *)

Module Policy.

(** [res] is the pair of values written into the two update dicts for one
    field, [v1]/[v2] the two issues' values, [t1]/[t2] their [updated_at]. *)
Definition field_policy {A} (one_enabled two_enabled : bool) (v1 v2 : A) (t1 t2 : nat)
    (res : option A * option A) : Prop :=
  (v1 = v2 -> res = (None, None)) /\
  (v1 <> v2 -> one_enabled = true -> two_enabled = true -> (t1 < t2)%nat -> res = (Some v2, None)) /\
  (v1 <> v2 -> one_enabled = true -> two_enabled = true -> (t2 < t1)%nat -> res = (None, Some v1)) /\
  (v1 <> v2 -> one_enabled = true -> two_enabled = false -> res = (Some v2, None)) /\
  (v1 <> v2 -> one_enabled = false -> two_enabled = true -> res = (None, Some v1)).

(** Position [k] lies inside one of the spans [ms]. *)
Definition covered (ms : list (nat * nat)) (k : nat) : bool :=
  existsb (fun m => Nat.leb m.1 k && Nat.ltb k m.2) ms.

(** The service calls a computation makes, whatever its outcome, include
    no [create_issue]. *)
Definition no_create {A} (m : Service.M A) : Prop :=
  forall st, exists l, Service.calls (fst (m st)) = Service.calls st ++ l /\
                       forall s, ~ In (Service.CreateIssue s) l.

End Policy.

(* ------------------------------------------------------------------ *)
(** ** Properties *)

Module Claims.
Import Rx Redact Regions Markup Engine Service Sync Fixtures Policy.

(** C1 (code bug). [perform_sync] takes only the watermark and returns
    [None]: when following the link of Jira issue 1 raises (its GitHub
    counterpart is gone), the run still ends normally with the unit value,
    the failed key [(JIRA, 1)] exists only in the loop's log, and nothing
    hands it back to the caller. *)
Theorem perform_sync_returns_no_failed_set :
  perform_sync cfg0 false None st_missing = (st_missing, Some tt) /\
  sync_loop (perform_sync_issue cfg0 false) (jira_issues st_missing) [] [] st_missing
    = (st_missing, Some ([], [(JIRA, 1%nat)])).
Proof. split; vm_compute; reflexivity. Qed.


(** C6 (counterexample). The mirror's title was edited, so the recomputed
    mirror title ["T"] differs from the stored one ["edited"], yet the
    mirror's update dict has no title: its stored title hash still equals
    the hash of the Jira title. *)
Lemma title_edit_not_restored_cex :
  make_mirror_issue_title cfg0 J = txt "T" /\ title G_edited = txt "edited" /\
  option_map (fun p => u_title p.2) (make_issue_updates cfg0 J G_edited) = Some None.
Proof. split; [|split]; vm_compute; reflexivity. Qed.

(** C7 (counterexample). GitHub redacts with [b] and then [ab]: on ["ab"]
    the second pattern matches the whole input, but it runs on ["a█"], so
    the ["a"] of that match survives. *)
Lemma redact_sequential_cex :
  finditer (literal (txt "ab")) (txt "ab") = [(0%nat, 2%nat)] /\
  Sync.redact_text cfg_rx GITHUB (txt "ab") = [97; block].
Proof. split; vm_compute; reflexivity. Qed.


(** C9 (counterexample). The quote handler's region is kept as returned,
    and it is flagged formatted. *)
Lemma quote_region_formatted_cex :
  isolate_regions [(txt "{quote}x{quote}", true)] QUOTE_RE QUOTE_RE gh_handle_quoted_content
    = Some [([10; 62; 32; 120; 10], true)].
Proof. vm_compute; reflexivity. Qed.

(** *** Update dicts *)

Section Updates.
Context `{Externals}.

Lemma make_field_updates_policy {A} cfg (eqb : A -> A -> bool) (get : issue -> A) one two f :
  (forall a b, eqb a b = true <-> a = b) ->
  field_policy (is_enabled cfg (i_source one) f) (is_enabled cfg (i_source two) f)
               (get one) (get two) (updated_at one) (updated_at two)
               (make_field_updates cfg eqb get one two f).
Proof.
  intros Heq. unfold make_field_updates, sync_feature_enabled.
  destruct (eqb (get one) (get two)) eqn:E.
  - apply Heq in E. rewrite E.
    repeat split; intros; try congruence;
      destruct (is_enabled cfg (i_source one) f), (is_enabled cfg (i_source two) f); reflexivity.
  - assert (Hne : get one <> get two) by (intros Hc; apply Heq in Hc; congruence).
    repeat split; intros; try congruence; subst; simpl;
      repeat match goal with H : _ = true |- _ => rewrite H | H : _ = false |- _ => rewrite H end;
      simpl; try reflexivity.
    + destruct (Nat.ltb (updated_at two) (updated_at one)) eqn:L; [apply Nat.ltb_lt in L; lia|].
      reflexivity.
    + destruct (Nat.ltb (updated_at two) (updated_at one)) eqn:L; [|apply Nat.ltb_ge in L; lia].
      reflexivity.
Qed.

(** The status, milestone and label entries of the two dicts are those of
    [_make_field_updates] and [_make_labels_updates]. *)
Lemma make_issue_updates_fields cfg one two u1 u2 :
  make_issue_updates cfg one two = Some (u1, u2) ->
  (u_is_open u1, u_is_open u2) = make_field_updates cfg Bool.eqb is_open one two SYNC_STATUS /\
  (u_milestones u1, u_milestones u2) = make_field_updates cfg set_eqb milestones one two SYNC_MILESTONES /\
  (u_labels u1, u_labels u2) = make_labels_updates cfg one two.
Proof.
  intros Hm. unfold make_issue_updates in Hm.
  destruct (make_field_updates cfg Bool.eqb is_open one two SYNC_STATUS) as [o1 o2].
  destruct (make_field_updates cfg set_eqb milestones one two SYNC_MILESTONES) as [m1 m2].
  destruct (make_labels_updates cfg one two) as [l1 l2].
  destruct (i_is_bot one || i_is_bot two);
    [destruct (i_is_bot one);
       [destruct (mirror_content_updates cfg two one) as [[[? ?] ?]|]
       |destruct (mirror_content_updates cfg one two) as [[[? ?] ?]|]]|];
    simpl in Hm; try discriminate;
    repeat case_match; simplify_eq/=;
    repeat split; destruct o1, o2, m1, m2, l1, l2; reflexivity.
Qed.

(** C4. For open/closed status and milestones, with [field_policy] the
    rule as stated: equal values give no entry; both sides enabled: the
    older issue receives the newer one's value; one side enabled: that
    side receives the other side's value. *)
Theorem status_milestones_last_writer_wins cfg one two u1 u2 :
  make_issue_updates cfg one two = Some (u1, u2) ->
  field_policy (is_enabled cfg (i_source one) SYNC_STATUS) (is_enabled cfg (i_source two) SYNC_STATUS)
               (is_open one) (is_open two) (updated_at one) (updated_at two)
               (u_is_open u1, u_is_open u2) /\
  field_policy (is_enabled cfg (i_source one) SYNC_MILESTONES)
               (is_enabled cfg (i_source two) SYNC_MILESTONES)
               (milestones one) (milestones two) (updated_at one) (updated_at two)
               (u_milestones u1, u_milestones u2).
Proof.
  intros Hm. destruct (make_issue_updates_fields cfg one two u1 u2 Hm) as (Ho & Hms & _).
  rewrite Ho, Hms. split; apply make_field_updates_policy.
  - intros a b. apply Bool.eqb_true_iff.
  - intros a b. unfold set_eqb. apply bool_decide_eq_true.
Qed.

(** C5. Every labels entry of either dict contains that side's sticky
    labels, and so does every mirror issue's label set. *)
Theorem sticky_labels_retained cfg :
  (forall one two u1 u2,
      make_issue_updates cfg one two = Some (u1, u2) ->
      (forall L, u_labels u1 = Some L -> sync_label_set (sync (get_source_config cfg (i_source one))) ⊆ L) /\
      (forall L, u_labels u2 = Some L -> sync_label_set (sync (get_source_config cfg (i_source two))) ⊆ L)) /\
  (forall src f,
      make_mirror_issue cfg src = Some f ->
      sync_label_set (sync (get_source_config cfg (other (i_source src)))) ⊆ set_default ∅ (f_labels f)).
Proof.
  split.
  - intros one two u1 u2 Hm. destruct (make_issue_updates_fields cfg one two u1 u2 Hm) as (_ & _ & Hl).
    unfold make_labels_updates in Hl.
    repeat case_match; simplify_eq/=; split; intros L HL; simplify_eq/=; set_solver.
  - intros src f Hf. unfold make_mirror_issue in Hf.
    destruct (make_mirror_issue_body cfg src), (body_hash src), (title_hash src);
      try discriminate.
    injection Hf as <-. simpl. case_bool_decide as Hs.
    + rewrite Hs. set_solver.
    + simpl. set_solver.
Qed.

(** The title/body entries [mirror_content_updates] produces. *)
Lemma mirror_content_updates_spec cfg src mir t b me :
  mirror_content_updates cfg src mir = Some (t, b, me) ->
  t = (if bool_decide (title_hash mir = title_hash src) then None
       else Some (make_mirror_issue_title cfg src)) /\
  isSome b = negb (bool_decide (body_hash mir = body_hash src)) /\
  (forall x, b = Some x -> make_mirror_issue_body cfg src = Some x).
Proof.
  unfold mirror_content_updates. intros Hc.
  destruct (title_hash mir) as [mt|]; [|discriminate].
  destruct (title_hash src) as [st|]; [|discriminate].
  destruct (body_hash mir) as [mb|]; [|destruct (bool_decide (mt = st)); discriminate].
  destruct (body_hash src) as [sb|]; [|destruct (bool_decide (mt = st)); discriminate].
  destruct (bool_decide (mt = st)) eqn:Et; destruct (bool_decide (mb = sb)) eqn:Eb;
    try destruct (make_mirror_issue_body cfg src) eqn:Mb; simplify_eq/=;
    rewrite ?bool_decide_eq_true, ?bool_decide_eq_false in Et, Eb;
    repeat case_bool_decide; simplify_eq/=; repeat split; intros; simplify_eq/=; auto.
Qed.

(** C6. With a bot-owned side, the content entries go to the mirror only:
    the source issue's dict never has a title or body; the mirror's dict
    has the recomputed title exactly when the stored title hashes differ,
    and a body (the recomputed one) exactly when the body hashes differ. *)
Theorem content_updates_follow_hashes cfg one two u1 u2 :
  i_is_bot one || i_is_bot two = true ->
  make_issue_updates cfg one two = Some (u1, u2) ->
  let '(src, mir, us, um) := if i_is_bot one then (two, one, u2, u1) else (one, two, u1, u2) in
  u_title us = None /\ u_body us = None /\
  u_title um = (if bool_decide (title_hash mir = title_hash src) then None
                else Some (make_mirror_issue_title cfg src)) /\
  isSome (u_body um) = negb (bool_decide (body_hash mir = body_hash src)) /\
  (forall b, u_body um = Some b -> make_mirror_issue_body cfg src = Some b).
Proof.
  intros Hb Hm. unfold make_issue_updates in Hm.
  destruct (make_field_updates cfg Bool.eqb is_open one two SYNC_STATUS) as [o1 o2].
  destruct (make_field_updates cfg set_eqb milestones one two SYNC_MILESTONES) as [m1 m2].
  destruct (make_labels_updates cfg one two) as [l1 l2].
  rewrite Hb in Hm.
  destruct (i_is_bot one) eqn:Bo.
  - destruct (mirror_content_updates cfg two one) as [[[t b] me]|] eqn:Hc; [|discriminate].
    apply mirror_content_updates_spec in Hc as (Ht & Hbs & Hbb).
    cbn [option_map] in Hm.
    destruct (bool_decide (i_source one = JIRA)); injection Hm as <- <-; cbn;
      repeat split; assumption.
  - destruct (mirror_content_updates cfg one two) as [[[t b] me]|] eqn:Hc; [|discriminate].
    apply mirror_content_updates_spec in Hc as (Ht & Hbs & Hbb).
    cbn [option_map] in Hm.
    destruct (bool_decide (i_source one = JIRA)); injection Hm as <- <-; cbn;
      repeat split; assumption.
Qed.

End Updates.

(** *** Redaction *)

Lemma first_end_in adv i pos es e : first_end adv i pos es = Some e -> In e es.
Proof.
  unfold first_end. destruct (adv && Nat.eqb i pos).
  - intros Hh. destruct (List.filter _ es) as [|x xs] eqn:Hf; [discriminate|].
    simpl in Hh. injection Hh as <-.
    assert (Hx : In x (List.filter (fun e => negb (Nat.eqb e pos)) es)) by (rewrite Hf; left; reflexivity).
    apply filter_In in Hx. apply Hx.
  - destruct es as [|x xs]; simpl; [discriminate|]. intros Hh; injection Hh as ->. left; reflexivity.
Qed.

Lemma search_adv_aux_bounds r t pos i k adv s e :
  search_adv_aux r t pos i k adv = Some (s, e) -> (s <= e <= length t)%nat.
Proof.
  revert i; induction k as [|k IH]; intros i; simpl; [discriminate|].
  destruct (first_end adv i pos (rx_match r t i)) as [e'|] eqn:Hf.
  - intros Hs; injection Hs as <- <-. apply first_end_in in Hf. apply (rx_bounds r) in Hf. exact Hf.
  - apply IH.
Qed.

Lemma finditer_aux_bounds r t pos adv fuel m :
  In m (finditer_aux r t pos adv fuel) -> (m.1 <= m.2 <= length t)%nat.
Proof.
  revert pos adv; induction fuel as [|fuel IH]; intros pos adv; simpl; [contradiction|].
  unfold search_adv. destruct (search_adv_aux r t pos pos _ adv) as [[s e]|] eqn:Hs; [|contradiction].
  intros [<-|Hin].
  - apply search_adv_aux_bounds in Hs. exact Hs.
  - apply (IH e (Nat.eqb s e) Hin).
Qed.

Lemma blank_span_spec acc s e :
  (s <= e <= length acc)%nat ->
  length (blank_span acc (s, e)) = length acc /\
  forall k, blank_span acc (s, e) !! k =
            if Nat.leb s k && Nat.ltb k e then Some block else acc !! k.
Proof.
  intros Hb. unfold blank_span.
  assert (Ht : length (take s acc) = s) by (rewrite length_take; lia).
  split.
  - rewrite !length_app, Ht, length_replicate, length_drop. lia.
  - intros k. unfold text. destruct (Nat.leb s k) eqn:L1; destruct (Nat.ltb k e) eqn:L2; cbn [andb];
      [apply Nat.leb_le in L1; apply Nat.ltb_lt in L2
      |apply Nat.leb_le in L1; apply Nat.ltb_ge in L2
      |apply Nat.leb_gt in L1..].
    + rewrite lookup_app_r by (rewrite Ht; lia).
      rewrite Ht, lookup_app_l by (rewrite length_replicate; lia).
      apply lookup_replicate_2. lia.
    + rewrite lookup_app_r by (rewrite Ht; lia).
      rewrite Ht, lookup_app_r by (rewrite length_replicate; lia).
      rewrite length_replicate, lookup_drop. f_equal. lia.
    + rewrite lookup_app_l by (rewrite Ht; lia). apply lookup_take_lt. lia.
    + rewrite lookup_app_l by (rewrite Ht; lia). apply lookup_take_lt. lia.
Qed.

Lemma fold_blank_spec ms acc :
  (forall m, In m ms -> (m.1 <= m.2 <= length acc)%nat) ->
  length (fold_left blank_span ms acc) = length acc /\
  forall k, fold_left blank_span ms acc !! k =
            if covered ms k then Some block else acc !! k.
Proof.
  revert acc; induction ms as [|[s e] ms IH]; intros acc Hb; cbn [fold_left].
  - split; reflexivity.
  - destruct (blank_span_spec acc s e) as [Hl Hk]; [apply (Hb (s, e)); left; reflexivity|].
    destruct (IH (blank_span acc (s, e))) as [Hl' Hk'].
    { intros m Hm. rewrite Hl. apply Hb. right. exact Hm. }
    split; [congruence|].
    intros k. rewrite Hk', Hk. unfold covered. simpl.
    destruct (Nat.leb s k && Nat.ltb k e), (existsb _ ms); reflexivity.
Qed.

(** C7 (amended). Redaction keeps the length; the patterns run one after
    the other, each on the previous one's output; one pattern blanks
    exactly the positions inside its [finditer] matches on the text it
    receives and leaves every other position as it was. *)
Theorem redaction_blanks_matches :
  (forall cfg s t, length (Sync.redact_text cfg s t) = length t) /\
  (forall rxs r t, Redact.redact_text (rxs ++ [r]) t = redact_one r (Redact.redact_text rxs t)) /\
  (forall r t k, redact_one r t !! k = if covered (finditer r t) k then Some block else t !! k).
Proof.
  assert (Hone : forall r t, length (redact_one r t) = length t /\
                 forall k, redact_one r t !! k =
                           if covered (finditer r t) k then Some block else t !! k).
  { intros r t. apply fold_blank_spec. intros m Hm. apply (finditer_aux_bounds r t 0 false _ m Hm). }
  split; [|split].
  - intros cfg s t. unfold Sync.redact_text, Redact.redact_text.
    generalize (redact_regexes (sync (get_source_config cfg s))) as rxs.
    intros rxs. revert t; induction rxs as [|r rxs IH]; intros t; simpl; [reflexivity|].
    rewrite IH. apply Hone.
  - intros rxs r t. unfold Redact.redact_text. rewrite fold_left_app. reflexivity.
  - intros r t k. apply Hone.
Qed.

(** *** Region isolation *)

Lemma search_aux_bounds r t i k s e :
  search_aux r t i k = Some (s, e) -> (i <= s /\ s <= e <= length t)%nat.
Proof.
  revert i; induction k as [|k IH]; intros i; simpl; [discriminate|].
  destruct (rx_match r t i) as [|e' es] eqn:Hm.
  - intros Hs. apply IH in Hs. lia.
  - intros Hs; injection Hs as <- <-.
    assert (Hin : In e' (rx_match r t i)) by (rewrite Hm; left; reflexivity).
    apply (rx_bounds r) in Hin. lia.
Qed.

Lemma search_bounds r t pos s e :
  search r t pos = Some (s, e) -> (pos <= s /\ s <= e <= length t)%nat.
Proof. apply search_aux_bounds. Qed.

Lemma drop_slice (t : text) a b : (a <= b)%nat -> drop a t = slice t a b ++ drop b t.
Proof.
  intros Hab. unfold slice. rewrite <- (firstn_skipn (b - a) (drop a t)) at 1.
  rewrite drop_drop. do 2 f_equal. lia.
Qed.

Lemma length_slice (t : text) a b : length (slice t a b) = Nat.min (b - a) (length t - a).
Proof. unfold slice. rewrite length_take, length_drop. reflexivity. Qed.

(** [scan] is [segments] followed by the handler on each fenced span. *)
Lemma scan_segments o c h content ci fuel :
  scan o c h content ci fuel =
  match segments o c content ci fuel with
  | Some gs => render_segments h gs
  | None => None
  end.
Proof.
  revert ci; induction fuel as [|fuel IH]; intros ci; simpl; [reflexivity|].
  destruct (Nat.ltb ci (length content)); [|reflexivity].
  destruct (search o content ci) as [[os oe]|]; [|reflexivity].
  set (cm := search c content oe).
  set (ei := match cm with Some (cs, _) => cs | None => length content end).
  set (ni := match cm with Some (_, ce) => ce | None => length content end).
  destruct (h (slice content oe ei) {| m_start := os; m_end := oe; m_string := content |})
    as [reg|] eqn:Hh.
  - destruct (Nat.ltb ci ni); [|reflexivity].
    rewrite IH. destruct (segments o c content ni fuel) as [gs|]; [|reflexivity].
    destruct (Nat.ltb ci os); simpl; rewrite Hh;
      destruct (render_segments h gs); reflexivity.
  - destruct (Nat.ltb ci ni); [|reflexivity].
    destruct (segments o c content ni fuel) as [gs|]; [|reflexivity].
    destruct (Nat.ltb ci os); simpl; rewrite Hh; reflexivity.
Qed.

(** The segments split the text from [ci] on, and no plain piece is empty. *)
Lemma segments_partition o c content ci fuel gs :
  segments o c content ci fuel = Some gs ->
  concat (map seg_text gs) = drop ci content /\ Forall plain_nonempty gs.
Proof.
  revert ci gs; induction fuel as [|fuel IH]; intros ci gs; simpl; [discriminate|].
  destruct (Nat.ltb ci (length content)) eqn:Lc.
  2:{ intros Hg; injection Hg as <-. apply Nat.ltb_ge in Lc. simpl.
      rewrite drop_ge by exact Lc. split; [reflexivity|constructor]. }
  apply Nat.ltb_lt in Lc.
  destruct (search o content ci) as [[os oe]|] eqn:Ho.
  2:{ intros Hg; injection Hg as <-. simpl. rewrite app_nil_r. split; [reflexivity|].
      constructor; [|constructor]. simpl. intros Hd.
      assert (Hl : length (drop ci content) = 0%nat) by (rewrite Hd; reflexivity).
      rewrite length_drop in Hl. lia. }
  apply search_bounds in Ho as (Hco & Hoe & Hol).
  set (cm := search c content oe).
  assert (Hcm : exists ei ni, (oe <= ei <= ni)%nat /\
           match cm with Some (cs, _) => cs | None => length content end = ei /\
           match cm with Some (_, ce) => ce | None => length content end = ni).
  { destruct cm as [[cs ce]|] eqn:Hc.
    - apply search_bounds in Hc. exists cs, ce. repeat split; lia.
    - exists (length content), (length content). repeat split; lia. }
  destruct Hcm as (ei & ni & Hen & -> & ->).
  destruct (Nat.ltb ci ni) eqn:Ln; [|discriminate].
  destruct (segments o c content ni fuel) as [rest|] eqn:Hr; [|discriminate].
  intros Hg; injection Hg as <-.
  destruct (IH ni rest Hr) as [Hrt Hrn].
  rewrite map_app, concat_app. simpl. unfold m_text. simpl. rewrite Hrt.
  rewrite (drop_slice content ci os), (drop_slice content os oe), (drop_slice content oe ei),
          (drop_slice content ei ni) by lia.
  split.
  - destruct (Nat.ltb ci os) eqn:L; simpl.
    + rewrite app_nil_r. rewrite !app_assoc. reflexivity.
    + apply Nat.ltb_ge in L. assert (os = ci) by lia. subst os.
      assert (Hz : slice content ci ci = []) by (unfold slice; rewrite Nat.sub_diag; reflexivity).
      rewrite Hz. simpl. rewrite !app_assoc. reflexivity.
  - apply Forall_app. split; [|constructor; [exact I|exact Hrn]].
    destruct (Nat.ltb ci os) eqn:L; [|constructor].
    apply Nat.ltb_lt in L. constructor; [|constructor]. simpl. intros Hs.
    assert (Hl : length (slice content ci os) = 0%nat) by (rewrite Hs; reflexivity).
    rewrite length_slice in Hl. lia.
Qed.

(** C9 (amended). An unformatted region is passed through; a formatted
    one is split into plain pieces and fenced spans ([segments]) that
    concatenate to its text, no plain piece being empty; every plain piece
    becomes a region flagged formatted and every fenced span becomes the
    handler's region for its inner text, with the flag the handler chose;
    the result lists the regions of each input region in order. *)
Theorem isolate_regions_structure (o c : regex) (h : handler) :
  (forall content, isolate_region o c h (content, false) = Some [(content, false)]) /\
  (forall content, isolate_region o c h (content, true) =
                   match segments o c content 0 (S (length content)) with
                   | Some gs => render_segments h gs
                   | None => None
                   end) /\
  (forall content gs, segments o c content 0 (S (length content)) = Some gs ->
                      concat (map seg_text gs) = content /\ Forall plain_nonempty gs) /\
  (forall r rs, isolate_regions (r :: rs) o c h =
                match isolate_region o c h r, isolate_regions rs o c h with
                | Some a, Some b => Some (a ++ b)
                | _, _ => None
                end).
Proof.
  split; [|split; [|split]].
  - intros content. reflexivity.
  - intros content. apply scan_segments.
  - intros content gs Hg. apply segments_partition in Hg. exact Hg.
  - intros r rs. reflexivity.
Qed.

(** *** Fences in the two formatters *)


Lemma lit_search_none p b j k :
  contains p b = false -> search_aux (literal p) b j k = None.
Proof.
  intros Hc. revert j; induction k as [|k IH]; intros j; simpl; [reflexivity|].
  unfold lit_match.
  destruct (Nat.leb j (length b)) eqn:L; [|apply IH].
  destruct (prefixb p (drop j b)) eqn:P; [|apply IH].
  exfalso. apply Nat.leb_le in L.
  assert (Ht : contains p b = true).
  { unfold contains. apply existsb_exists. exists j. split; [apply in_seq; lia|exact P]. }
  congruence.
Qed.





(** *** Calls made for a linked issue *)

Lemma calls_write s l c st : calls (write s l c st) = calls st ++ [c].
Proof. reflexivity. Qed.

Lemma nc_ret {A} (a : A) : no_create (ret a).
Proof. intros st. exists []. rewrite app_nil_r. split; [reflexivity|]. intros s []. Qed.

Lemma nc_raise {A} : no_create (@raise A).
Proof. intros st. exists []. rewrite app_nil_r. split; [reflexivity|]. intros s []. Qed.

Lemma nc_lift {A} (o : option A) : no_create (lift o).
Proof. destruct o; [apply nc_ret|apply nc_raise]. Qed.

Lemma nc_bind {A B} (m : M A) (k : A -> M B) :
  no_create m -> (forall a, no_create (k a)) -> no_create (bind m k).
Proof.
  intros Hm Hk st. unfold bind. destruct (Hm st) as (l1 & Hl1 & Hn1).
  destruct (m st) as [st1 [a|]]; simpl in Hl1.
  - destruct (Hk a st1) as (l2 & Hl2 & Hn2). exists (l1 ++ l2).
    rewrite Hl2, Hl1, app_assoc. split; [reflexivity|].
    intros s Hin. apply in_app_or in Hin as [Hin|Hin]; [eapply Hn1|eapply Hn2]; exact Hin.
  - exists l1. split; assumption.
Qed.

Lemma nc_try {A} (m : M A) : no_create m -> no_create (try_ m).
Proof.
  intros Hm st. destruct (Hm st) as (l & Hl & Hn). exists l. unfold try_.
  destruct (m st) as [st1 r]. split; assumption.
Qed.

Lemma nc_write_call {A} (f : svc -> svc * option A) c :
  (forall s, c <> CreateIssue s) ->
  (forall st, fst (f st) = st \/ exists s l, fst (f st) = write s l c st) ->
  no_create f.
Proof.
  intros Hc Hf st. destruct (Hf st) as [->|(s & l & ->)].
  - exists []. rewrite app_nil_r. split; [reflexivity|]. intros ? [].
  - exists [c]. split; [reflexivity|]. intros s' [Hs|[]]. apply (Hc s'). exact Hs.
Qed.

Lemma nc_get_issue s id : no_create (get_issue s id).
Proof. apply (nc_write_call _ (UpdateIssue s 0)); [discriminate|]. intros st. left. reflexivity. Qed.

Lemma nc_update_issue s i u : no_create (update_issue s i u).
Proof.
  unfold update_issue. destruct (_ && _); [apply nc_raise|].
  apply (nc_write_call _ (UpdateIssue s (issue_id i))); [discriminate|].
  intros st. destruct (apply_updates i u (clock st)); [right; eexists _, _; reflexivity|left; reflexivity].
Qed.

Lemma nc_create_comment bot s i f : no_create (create_comment bot s i f).
Proof.
  apply (nc_write_call _ (CreateComment s (issue_id i))); [discriminate|].
  intros st. right. eexists _, _. reflexivity.
Qed.

Lemma nc_update_comment s c b : no_create (update_comment s c b).
Proof.
  unfold update_comment. destruct (negb (c_is_bot c)); [apply nc_raise|].
  apply (nc_write_call _ (UpdateComment s (comment_id c))); [discriminate|].
  intros st. destruct (owner s c st); [right; eexists _, _; reflexivity|left; reflexivity].
Qed.

Lemma nc_delete_comment s c : no_create (delete_comment s c).
Proof.
  unfold delete_comment. destruct (negb (c_is_bot c)); [apply nc_raise|].
  apply (nc_write_call _ (DeleteComment s (comment_id c))); [discriminate|].
  intros st. destruct (owner s c st); [right; eexists _, _; reflexivity|left; reflexivity].
Qed.

Ltac nc_step :=
  match goal with
  | |- no_create (bind _ _) => apply nc_bind; [|intros ?]
  | |- no_create (try_ _) => apply nc_try
  | |- no_create (ret _) => apply nc_ret
  | |- no_create raise => apply nc_raise
  | |- no_create (lift _) => apply nc_lift
  | |- no_create (get_issue _ _) => apply nc_get_issue
  | |- no_create (update_issue _ _ _) => apply nc_update_issue
  | |- no_create (create_comment _ _ _ _) => apply nc_create_comment
  | |- no_create (update_comment _ _ _) => apply nc_update_comment
  | |- no_create (delete_comment _ _) => apply nc_delete_comment
  | |- no_create (if ?b then _ else _) => destruct b
  | |- no_create (match ?x with _ => _ end) => destruct x
  end.

Section Linked.
Context `{Externals}.


Lemma nc_sync_one_comment cfg dry_run by_id by_mirror_id iss c oth :
  no_create (sync_one_comment cfg dry_run by_id by_mirror_id iss c oth).
Proof. unfold sync_one_comment. repeat nc_step. Qed.

Lemma nc_run_each f l : (forall x, no_create (f x)) -> no_create (run_each f l).
Proof.
  intros Hf. induction l as [|x l IH]; simpl; [apply nc_ret|].
  apply nc_bind; [apply nc_try, Hf|intros _; exact IH].
Qed.

Lemma nc_sync_comments cfg dry_run one two : no_create (sync_comments cfg dry_run one two).
Proof.
  unfold sync_comments. destruct (_ && _); [apply nc_ret|].
  apply nc_run_each. intros [[iss c] oth]. apply nc_sync_one_comment.
Qed.


End Linked.

(** *** The issue loop *)

Lemma sync_loop_total (process : issue -> M (option issue)) us seen logged st :
  exists st' r, sync_loop process us seen logged st = (st', Some r).
Proof.
  revert seen logged st; induction us as [|u us IH]; intros seen logged st; simpl.
  - eexists _, _; reflexivity.
  - case_bool_decide; [apply IH|].
    unfold bind, try_. destruct (process u st) as [st1 [o|]].
    + destruct o; apply IH.
    + apply IH.
Qed.

Lemma sync_loop_app (process : issue -> M (option issue)) l1 l2 seen logged st :
  sync_loop process (l1 ++ l2) seen logged st =
  match sync_loop process l1 seen logged st with
  | (st', Some (seen', logged')) => sync_loop process l2 seen' logged' st'
  | (st', None) => (st', None)
  end.
Proof.
  revert seen logged st; induction l1 as [|u l1 IH]; intros seen logged st; simpl.
  - reflexivity.
  - case_bool_decide; [apply IH|].
    unfold bind, try_. destruct (process u st) as [st1 [o|]].
    + destruct o; apply IH.
    + apply IH.
Qed.

Section Loop.
Context `{Externals}.

(** C2. Neither the loop nor [perform_sync] ever raises. If processing
    [x] raises after the issues [pre] were handled (and [x] was not yet
    seen), the exception is caught, [x] is logged, and the run goes on with
    the remaining issues [suf] exactly as if [x] had not been there (apart
    from the log and the effects [x] performed before raising). *)
Theorem sync_loop_isolates_failures :
  (forall cfg dry_run min_updated_at st,
      snd (perform_sync cfg dry_run min_updated_at st) = Some tt) /\
  (forall (process : issue -> M (option issue)) pre x suf seen0 log0 st0 st1 seen1 log1 st2,
      sync_loop process pre seen0 log0 st0 = (st1, Some (seen1, log1)) ->
      key x ∉ seen1 ->
      process x st1 = (st2, None) ->
      sync_loop process (pre ++ x :: suf) seen0 log0 st0
        = sync_loop process suf seen1 (log1 ++ [key x]) st2).
Proof.
  split.
  - intros cfg dry_run m st. unfold perform_sync, bind, find_issues.
    do 2 (lazymatch goal with
          | |- context [sync_loop ?p ?l ?a ?b ?s] =>
              destruct (sync_loop_total p l a b s) as (? & ? & ->)
          end; cbn [fst snd]).
    reflexivity.
  - intros process pre x suf seen0 log0 st0 st1 seen1 log1 st2 Hpre Hx Hp.
    rewrite sync_loop_app, Hpre. simpl. rewrite bool_decide_false by exact Hx.
    unfold bind, try_. rewrite Hp. reflexivity.
Qed.

End Loop.

(** C10. Under the default filter a closed issue is refused; a closed,
    unlinked issue is then left alone: no call, no change of state. *)
Theorem closed_unlinked_not_mirrored `{Externals} :
  (forall i, is_open i = false -> accept default_filter i = false) /\
  (forall cfg dry_run u st,
      filter_config (get_source_config cfg (other (i_source u))) = default_filter ->
      is_open u = false ->
      truthy_id (mirror_id u) = false ->
      truthy_id (github_issue_id u) = false ->
      perform_sync_issue cfg dry_run u st = (st, Some None)).
Proof.
  assert (Hacc : forall i, is_open i = false -> accept default_filter i = false).
  { intros i Hi. unfold accept. rewrite Hi. reflexivity. }
  split; [exact Hacc|].
  intros cfg dry_run u st Hf Ho Hm Hg.
  unfold perform_sync_issue. rewrite Hm, Hg. simpl.
  unfold accept_issue. rewrite Hf, (Hacc u Ho), andb_false_r. reflexivity.
Qed.

(** A closed, unlinked GitHub issue under [cfg0]. *)
Lemma closed_unlinked_not_mirrored_witness :
  is_open (mk_closed G) = false /\ accept default_filter (mk_closed G) = false /\
  perform_sync_issue cfg0 false (mk_closed G) st0 = (st0, Some None).
Proof.
  split; [reflexivity|]. split.
  - apply (proj1 closed_unlinked_not_mirrored). reflexivity.
  - apply (proj2 closed_unlinked_not_mirrored); vm_compute; reflexivity.
Defined.

(** Processing [J] raises on [st_missing]; [G] after it is still handled. *)
Lemma sync_loop_isolates_failures_witness :
  snd (perform_sync cfg0 false None st_missing) = Some tt /\
  sync_loop (perform_sync_issue cfg0 false) ([] ++ J :: [G]) [] [] st_missing
    = sync_loop (perform_sync_issue cfg0 false) [G] [] ([] ++ [key J]) st_missing.
Proof.
  split.
  - apply (proj1 sync_loop_isolates_failures).
  - apply (proj2 sync_loop_isolates_failures (perform_sync_issue cfg0 false) [] J [G] [] []
             st_missing st_missing [] [] st_missing); [reflexivity| |vm_compute; reflexivity].
    intros Hin. inversion Hin.
Defined.

(** The Jira issue [J] and its mirror [G] under [cfg0]. *)
Lemma status_milestones_last_writer_wins_witness :
  exists u1 u2, make_issue_updates cfg0 J G = Some (u1, u2) /\
  field_policy (is_enabled cfg0 (i_source J) SYNC_STATUS) (is_enabled cfg0 (i_source G) SYNC_STATUS)
               (is_open J) (is_open G) (updated_at J) (updated_at G)
               (u_is_open u1, u_is_open u2) /\
  field_policy (is_enabled cfg0 (i_source J) SYNC_MILESTONES)
               (is_enabled cfg0 (i_source G) SYNC_MILESTONES)
               (milestones J) (milestones G) (updated_at J) (updated_at G)
               (u_milestones u1, u_milestones u2).
Proof.
  destruct (make_issue_updates cfg0 J G) as [[u1 u2]|] eqn:E; [|vm_compute in E; discriminate].
  exists u1, u2. split; [reflexivity|].
  apply (status_milestones_last_writer_wins cfg0 J G u1 u2 E).
Defined.

Lemma sticky_labels_retained_witness :
  (exists u1 u2, make_issue_updates cfg0 J G = Some (u1, u2) /\
     forall L, u_labels u1 = Some L -> sync_label_set (sync (get_source_config cfg0 (i_source J))) ⊆ L) /\
  (exists f, make_mirror_issue cfg0 G = Some f /\
     sync_label_set (sync (get_source_config cfg0 (other (i_source G)))) ⊆ set_default ∅ (f_labels f)).
Proof.
  split.
  - destruct (make_issue_updates cfg0 J G) as [[u1 u2]|] eqn:E; [|vm_compute in E; discriminate].
    exists u1, u2. split; [reflexivity|].
    apply (proj1 (proj1 (sticky_labels_retained cfg0) J G u1 u2 E)).
  - destruct (make_mirror_issue cfg0 G) as [f|] eqn:E; [|vm_compute in E; discriminate].
    exists f. split; [reflexivity|].
    apply (proj2 (sticky_labels_retained cfg0) G f E).
Defined.

(** The mirror with an edited title. *)
Lemma content_updates_follow_hashes_witness :
  exists u1 u2, make_issue_updates cfg0 J G_edited = Some (u1, u2) /\
  let '(src, mir, us, um) :=
    if i_is_bot J then (G_edited, J, u2, u1) else (J, G_edited, u1, u2) in
  u_title us = None /\ u_body us = None /\
  u_title um = (if bool_decide (title_hash mir = title_hash src) then None
                else Some (make_mirror_issue_title cfg0 src)) /\
  isSome (u_body um) = negb (bool_decide (body_hash mir = body_hash src)) /\
  (forall b, u_body um = Some b -> make_mirror_issue_body cfg0 src = Some b).
Proof.
  destruct (make_issue_updates cfg0 J G_edited) as [[u1 u2]|] eqn:E;
    [|vm_compute in E; discriminate].
  exists u1, u2. split; [reflexivity|].
  apply (content_updates_follow_hashes cfg0 J G_edited u1 u2); [reflexivity|exact E].
Defined.

(** A GitHub quote block between two plain pieces. *)
Lemma isolate_regions_structure_witness :
  segments QUOTE_RE QUOTE_RE (txt "a{quote}x{quote}b") 0 (S (length (txt "a{quote}x{quote}b")))
    = Some [Plain (txt "a");
            Fenced (txt "x") {| m_start := 1; m_end := 8; m_string := txt "a{quote}x{quote}b" |}
                   (txt "{quote}");
            Plain (txt "b")] /\
  concat (map seg_text [Plain (txt "a");
            Fenced (txt "x") {| m_start := 1; m_end := 8; m_string := txt "a{quote}x{quote}b" |}
                   (txt "{quote}");
            Plain (txt "b")]) = txt "a{quote}x{quote}b".
Proof.
  assert (Hs : segments QUOTE_RE QUOTE_RE (txt "a{quote}x{quote}b") 0
                 (S (length (txt "a{quote}x{quote}b")))
               = Some [Plain (txt "a");
                       Fenced (txt "x") {| m_start := 1; m_end := 8;
                                           m_string := txt "a{quote}x{quote}b" |} (txt "{quote}");
                       Plain (txt "b")]) by (vm_compute; reflexivity).
  split; [exact Hs|].
  apply (proj1 (proj1 (proj2 (proj2 (isolate_regions_structure QUOTE_RE QUOTE_RE
                                       gh_handle_quoted_content))) _ _ Hs)).
Defined.



End Claims.

(* ------------------------------------------------------------------ *)
(** ** Further properties of the code: the formatters' fences, GitHub URLs,
    metadata anchors and the synchronisation steps *)

Module Extras.
Import Rx Regions Markup Engine Service Sync Policy Claims Urls JiraMeta Helpers.

Lemma prefixb_app_self (p c : text) : prefixb p (p ++ c) = true.
Proof. induction p as [|a p IH]; simpl; [reflexivity|]. rewrite Z.eqb_refl. exact IH. Qed.

Lemma prefixb_app_cases (p u v : text) :
  prefixb p (u ++ v) = true ->
  prefixb p u = true \/
  ((length u < length p)%nat /\ prefixb u p = true /\ prefixb (drop (length u) p) v = true).
Proof.
  revert p; induction u as [|a u IH]; intros [|b p] H; simpl in *; auto.
  - right. split; [lia|]. split; [reflexivity|exact H].
  - apply andb_prop in H as [Hb H]. apply Z.eqb_eq in Hb. subst b.
    rewrite Z.eqb_refl. simpl. destruct (IH p H) as [H1|(H1 & H2 & H3)]; [left; exact H1|].
    right. split; [lia|]. split; assumption.
Qed.

Lemma prefixb_incl (p t : text) c : prefixb p t = true -> In c p -> In c t.
Proof.
  revert t; induction p as [|a p IH]; intros [|b t] H Hin; simpl in *; try contradiction; try discriminate.
  apply andb_prop in H as [Hb H]. apply Z.eqb_eq in Hb. subst b.
  destruct Hin as [<-|Hin]; [left; reflexivity|right; exact (IH t H Hin)].
Qed.

Lemma prefixb_take (p t : text) : prefixb p t = true -> t = p ++ drop (length p) t.
Proof.
  revert t; induction p as [|a p IH]; intros [|b t] H; simpl in *; try discriminate; try reflexivity.
  apply andb_prop in H as [Hb H]. apply Z.eqb_eq in Hb. subst b. f_equal. exact (IH t H).
Qed.

Lemma contains_intro (p t : text) j :
  (j <= length t)%nat -> prefixb p (drop j t) = true -> contains p t = true.
Proof.
  intros Hj H. unfold contains. apply existsb_exists. exists j. split; [apply in_seq; lia|exact H].
Qed.

Lemma contains_elim (p t : text) j :
  contains p t = false -> (j <= length t)%nat -> prefixb p (drop j t) = false.
Proof.
  intros Hc Hj. destruct (prefixb p (drop j t)) eqn:E; [|reflexivity].
  rewrite (contains_intro p t j Hj E) in Hc. discriminate.
Qed.


Lemma overlap_free_spec p u X k :
  overlap_free p u = true -> (1 <= k < length p)%nat -> prefixb (drop k p) (u ++ X) = false.
Proof.
  intros Ho Hk. destruct (prefixb (drop k p) (u ++ X)) eqn:E; [|reflexivity].
  unfold overlap_free in Ho. rewrite forallb_forall in Ho.
  specialize (Ho k). rewrite in_seq in Ho. specialize (Ho ltac:(lia)).
  apply prefixb_app_cases in E as [E|(_ & E & _)]; rewrite E in Ho; [|rewrite orb_true_r in Ho];
    discriminate.
Qed.

Lemma prefixb_take_eq (u p : text) : prefixb u p = true -> take (length u) p = u.
Proof. intros H. rewrite (prefixb_take u p H) at 1. apply take_app_length. Qed.

(** Occurrences of [p] starting inside [a] in [a ++ b]: wholly inside [a],
    or a suffix of [a] that begins [p], continued in [b]. *)
Lemma no_early (p a b : text) :
  contains p a = false ->
  (forall k, (1 <= k < length p)%nat -> (k <= length a)%nat ->
     drop (length a - k) a = take k p -> prefixb (drop k p) b = false) ->
  forall i, (i < length a)%nat -> prefixb p (drop i (a ++ b)) = false.
Proof.
  intros Ha Hb i Hi. rewrite drop_app_le by lia.
  destruct (prefixb p (drop i a ++ b)) eqn:E; [|reflexivity].
  apply prefixb_app_cases in E as [E|(Hl & Ht & E)].
  - rewrite (contains_elim p a i Ha) in E by lia. discriminate.
  - apply prefixb_take_eq in Ht. rewrite length_drop in Hl, E, Ht.
    rewrite (Hb (length a - i)%nat) in E; [discriminate|lia|lia|].
    replace (length a - (length a - i))%nat with i by lia. symmetry. exact Ht.
Qed.

Lemma contains_app_false (p a b : text) :
  contains p a = false -> contains p b = false ->
  (forall k, (1 <= k < length p)%nat -> (k <= length a)%nat ->
     drop (length a - k) a = take k p -> prefixb (drop k p) b = false) ->
  contains p (a ++ b) = false.
Proof.
  intros Ha Hb Hk. destruct (contains p (a ++ b)) eqn:E; [|reflexivity].
  unfold contains in E. apply existsb_exists in E as (j & Hj & E). apply in_seq in Hj.
  destruct (Nat.lt_ge_cases j (length a)) as [Hl|Hl].
  - rewrite (no_early p a b Ha Hk j Hl) in E. discriminate.
  - rewrite drop_app_ge in E by lia. rewrite length_app in Hj.
    rewrite (contains_elim p b (j - length a) Hb) in E by lia. discriminate.
Qed.


Lemma tail_free_spec a p b :
  tail_free a p = true ->
  forall k, (1 <= k < length p)%nat -> (k <= length a)%nat ->
    drop (length a - k) a = take k p -> prefixb (drop k p) b = false.
Proof.
  intros Ht k Hk _ He. exfalso. unfold tail_free in Ht. rewrite forallb_forall in Ht.
  specialize (Ht k). rewrite in_seq in Ht. specialize (Ht ltac:(lia)).
  rewrite bool_decide_eq_true_2 in Ht by exact He. discriminate.
Qed.

Lemma overlap_free_straddle p a u X :
  overlap_free p u = true ->
  forall k, (1 <= k < length p)%nat -> (k <= length a)%nat ->
    drop (length a - k) a = take k p -> prefixb (drop k p) (u ++ X) = false.
Proof. intros Ho k Hk _ _. apply overlap_free_spec; assumption. Qed.

(** A character of [p] that [t] lacks. *)
Lemma prefixb_missing (p t : text) c :
  In c p -> ~ In c t -> prefixb p t = false.
Proof.
  intros Hp Ht. destruct (prefixb p t) eqn:E; [|reflexivity].
  exfalso. exact (Ht (prefixb_incl p t c E Hp)).
Qed.

Lemma contains_missing (p t : text) c :
  In c p -> ~ In c t -> contains p t = false.
Proof.
  intros Hp Ht. destruct (contains p t) eqn:E; [|reflexivity].
  unfold contains in E. apply existsb_exists in E as (j & _ & E).
  exfalso. apply Ht. rewrite <- (take_drop j t). apply in_or_app. right. exact (prefixb_incl p _ c E Hp).
Qed.

Lemma contains_nil (p : text) : p <> [] -> contains p [] = false.
Proof. destruct p; [congruence|]. reflexivity. Qed.

(** The leftmost match. *)
Lemma search_first (r : regex) t j k e es :
  (j <= k <= length t)%nat ->
  (forall i, (j <= i < k)%nat -> rx_match r t i = []) ->
  rx_match r t k = e :: es ->
  search r t j = Some (k, e).
Proof.
  intros Hk Hn Hm. unfold search.
  assert (Hg : forall n i, (i <= k)%nat -> (j <= i)%nat -> (k - i < n)%nat ->
                 search_aux r t i n = Some (k, e)).
  { induction n as [|n IH]; intros i H1 H2 H3; [lia|]. simpl.
    destruct (Nat.eq_dec i k) as [->|Hne]; [rewrite Hm; reflexivity|].
    rewrite (Hn i) by lia. apply IH; lia. }
  apply Hg; lia.
Qed.

Lemma search_none (r : regex) t j :
  (forall i, (j <= i)%nat -> rx_match r t i = []) -> search r t j = None.
Proof.
  intros Hn. unfold search. generalize (S (length t - j)) as n.
  assert (Hg : forall n i, (j <= i)%nat -> search_aux r t i n = None).
  { induction n as [|n IH]; intros i Hi; simpl; [reflexivity|]. rewrite Hn by lia. apply IH. lia. }
  intros n. apply Hg. lia.
Qed.

(** A literal found at the end of [q ++ b], [b] free of it. *)
Lemma lit_first (p q b c : text) :
  (forall i, (i < length b)%nat -> prefixb p (drop i (b ++ p ++ c)) = false) ->
  search (literal p) (q ++ b ++ p ++ c) (length q)
  = Some ((length q + length b)%nat, (length q + length b + length p)%nat).
Proof.
  intros Hb. apply (search_first _ _ _ _ _ []).
  - rewrite !length_app. lia.
  - intros i Hi. cbn [rx_match literal]. unfold lit_match.
    rewrite drop_app_ge by lia. rewrite Hb by lia. rewrite andb_false_r. reflexivity.
  - cbn [rx_match literal]. unfold lit_match.
    rewrite drop_app_ge by lia. replace (length q + length b - length q)%nat with (length b) by lia.
    rewrite drop_app_length, prefixb_app_self.
    replace (Nat.leb _ _) with true by (symmetry; apply Nat.leb_le; rewrite !length_app; lia).
    reflexivity.
Qed.

Lemma brace_ends_app (u w : text) k :
  Forall (fun c => c <> c_nl /\ c <> c_rbrace) u ->
  exists es, brace_ends (u ++ c_rbrace :: w) k = S (k + length u) :: es.
Proof.
  revert k; induction u as [|c u IH]; intros k Hu; simpl.
  - eexists. rewrite Nat.add_0_r. reflexivity.
  - apply Forall_cons in Hu as [[Hn Hr] Hu].
    apply Z.eqb_neq in Hn, Hr. rewrite Hn, Hr. simpl.
    destruct (IH (S k) Hu) as [es Hes]. rewrite Hes. exists es. f_equal. lia.
Qed.

Lemma slice_mid (q b r : text) : slice (q ++ b ++ r) (length q) (length q + length b) = b.
Proof.
  unfold slice. rewrite drop_app_length. replace (length q + length b - length q)%nat with (length b) by lia.
  rewrite take_app_length. reflexivity.
Qed.




Lemma isolate_nomatch o c h (t : text) :
  (0 < length t)%nat -> search o t 0 = None -> isolate_regions [(t, true)] o c h = Some [(t, true)].
Proof.
  intros Hl Ho. cbn [isolate_regions isolate_region negb]. cbn [scan].
  replace (Nat.ltb 0 (length t)) with true by (symmetry; apply Nat.ltb_lt; lia).
  rewrite Ho, drop_0. reflexivity.
Qed.

Lemma isolate_fail o c h (t : text) oe cs ce :
  (0 < length t)%nat ->
  search o t 0 = Some (0%nat, oe) ->
  search c t oe = Some (cs, ce) ->
  h (slice t oe cs) {| m_start := 0; m_end := oe; m_string := t |} = None ->
  isolate_regions [(t, true)] o c h = None.
Proof.
  intros Hl Ho Hc Hh. cbn [isolate_regions isolate_region negb]. cbn [scan].
  replace (Nat.ltb 0 (length t)) with true by (symmetry; apply Nat.ltb_lt; lia).
  rewrite Ho, Hc, Hh. reflexivity.
Qed.

Lemma isolate_plain o c h (t : text) : isolate_regions [(t, false)] o c h = Some [(t, false)].
Proof. reflexivity. Qed.



Lemma rev_seq_S n : rev (seq 0 (S n)) = n :: rev (seq 0 n).
Proof. rewrite seq_S, rev_app_distr. reflexivity. Qed.




Lemma lit_first_free (p q b c : text) :
  contains p b = false -> overlap_free p p = true ->
  search (literal p) (q ++ b ++ p ++ c) (length q)
  = Some ((length q + length b)%nat, (length q + length b + length p)%nat).
Proof.
  intros Hb Ho. apply lit_first. apply no_early; [exact Hb|].
  apply overlap_free_straddle. exact Ho.
Qed.

Lemma lit_at (p t : text) : search (literal p) (p ++ t) 0 = Some (0%nat, length p).
Proof.
  apply (search_first _ _ _ _ _ []); [lia|intros; lia|].
  cbn [rx_match literal]. unfold lit_match. rewrite drop_0, prefixb_app_self. reflexivity.
Qed.

Lemma lit_none (p t : text) j : contains p t = false -> search (literal p) t j = None.
Proof. intros Hc. unfold search. apply lit_search_none. exact Hc. Qed.

Lemma code_open_none (t : text) j : contains (txt "{code") t = false -> search CODE_OPEN_RE t j = None.
Proof.
  intros Hc. apply search_none. intros i _. cbn [rx_match CODE_OPEN_RE]. unfold code_open_match.
  destruct (Nat.leb i (length t)) eqn:L; [|reflexivity]. apply Nat.leb_le in L.
  rewrite (contains_elim _ _ i Hc L). reflexivity.
Qed.





Lemma split_nl_no_nl (l : text) : Forall (fun c => c <> c_nl) l -> l <> [] -> split_nl l = [l].
Proof.
  induction l as [|c l IH]; intros Hl Hne; [congruence|].
  apply Forall_cons in Hl as [Hc Hl]. simpl. apply Z.eqb_neq in Hc. rewrite Hc.
  destruct l as [|c' l']; [reflexivity|]. rewrite IH by (assumption || discriminate). reflexivity.
Qed.

Lemma is_space_not_brace c : is_space c = true -> c <> 123.
Proof. intros H ->. discriminate H. Qed.



(** X3. GitHub's formatter fails on a Jira quote whose content is a
    non-empty run of blanks without newline: [_handle_quoted_content] indexes
    the first line of an empty list ([IndexError]). *)
Theorem blank_quote_raises fc (ws : text) :
  ws <> [] -> Forall (fun c => is_space c = true /\ c <> c_nl) ws ->
  gh_format_body fc (txt "{quote}" ++ ws ++ txt "{quote}") = None.
Proof.
  intros Hne Hws.
  set (w := txt "{quote}" ++ ws ++ txt "{quote}").
  assert (Hl : (0 < length w)%nat) by (subst w; rewrite !length_app; simpl; lia).
  assert (Hnb : ~ In 123 ws).
  { intros Hin. rewrite List.Forall_forall in Hws. destruct (Hws _ Hin) as [Hs _].
    exact (is_space_not_brace _ Hs eq_refl). }
  assert (Hfree : forall p, In 123 p -> contains p (txt "{quote}") = false ->
            tail_free (txt "{quote}") p = true -> overlap_free p (txt "{quote}") = true ->
            contains p w = false).
  { intros p Hp H1 H2 H3. subst w. apply contains_app_false; [exact H1| |apply tail_free_spec; exact H2].
    apply contains_app_false; [exact (contains_missing p ws 123 Hp Hnb)|exact H1|].
    rewrite <- (app_nil_r (txt "{quote}")). apply overlap_free_straddle. exact H3. }
  unfold gh_format_body.
  rewrite (isolate_nomatch _ _ _ _ Hl (code_open_none w 0
             (Hfree (txt "{code") ltac:(simpl; auto) eq_refl eq_refl eq_refl))).
  unfold NOFORMAT_RE at 1.
  rewrite (isolate_nomatch _ _ _ _ Hl (lit_none _ w 0
             (Hfree (txt "{noformat}") ltac:(simpl; auto) eq_refl eq_refl eq_refl))).
  rewrite (isolate_fail _ _ _ _ 7 (7 + length ws)%nat (7 + length ws + 7)%nat Hl).
  - reflexivity.
  - subst w. unfold QUOTE_RE. apply lit_at.
  - subst w. unfold QUOTE_RE.
    pose proof (lit_first_free (txt "{quote}") (txt "{quote}") ws []
                  (contains_missing (txt "{quote}") ws 123 ltac:(simpl; auto) Hnb) eq_refl) as H.
    rewrite app_nil_r in H. exact H.
  - subst w. change 7%nat with (length (txt "{quote}")). rewrite slice_mid.
    unfold gh_handle_quoted_content.
    replace (Nat.ltb 0 (length ws)) with true
      by (destruct ws; [congruence|reflexivity]).
    rewrite split_nl_no_nl by (assumption || (eapply Forall_impl; [exact Hws|intros x [_ Hx]; exact Hx])).
    replace (blank ws) with true.
    + reflexivity.
    + symmetry. unfold blank. apply forallb_forall. intros x Hx.
      rewrite List.Forall_forall in Hws. exact (proj1 (Hws x Hx)).
Qed.



Lemma pretty_N_char_code m :
  (m < 10)%N -> Z.of_nat (nat_of_ascii (pretty_N_char m)) = 48 + Z.of_N m.
Proof.
  intros Hm.
  assert (m = 0 \/ m = 1 \/ m = 2 \/ m = 3 \/ m = 4 \/ m = 5 \/ m = 6 \/ m = 7 \/ m = 8 \/ m = 9)%N
    as Hc by lia.
  repeat destruct Hc as [->|Hc]; [reflexivity..|subst; reflexivity].
Qed.

Lemma pretty_N_go_digits x s :
  exists D, txt (pretty_N_go x s) = D ++ txt s /\ Forall (fun c => is_digit c = true) D /\
            (forall a, fold_left dec_step D a = a * 10 ^ length D + N.to_nat x)%nat /\
            ((0 < x)%N -> D <> []).
Proof.
  revert s. induction (N.lt_wf_0 x) as [x _ IH]; intros s.
  destruct (N.eq_dec x 0%N) as [->|Hx].
  - exists []. rewrite pretty_N_go_0. split; [reflexivity|]. split; [constructor|].
    split; [intros a; simpl; lia|]. intros H0; lia.
  - rewrite pretty_N_go_step by (apply N.neq_0_lt_0; exact Hx).
    destruct (IH (x / 10)%N ltac:(apply N.div_lt; lia) (String (pretty_N_char (x mod 10)) s))
      as (D & HD & Hdig & Hval & _).
    exists (D ++ [48 + Z.of_N (x mod 10)]). rewrite HD.
    assert (Hm : (x mod 10 < 10)%N) by (apply N.mod_lt; lia).
    assert (Hm' : 0 <= Z.of_N (x mod 10) < 10)
      by (split; [apply N2Z.is_nonneg|change 10 with (Z.of_N 10); apply N2Z.inj_lt; exact Hm]).
    split; [|split; [|split]].
    + rewrite <- app_assoc. cbn. rewrite pretty_N_char_code by exact Hm. reflexivity.
    + apply Forall_app. split; [exact Hdig|]. constructor; [|constructor].
      unfold is_digit. apply andb_true_iff. split; apply Z.leb_le; lia.
    + intros a. rewrite fold_left_app, Hval. cbn [fold_left]. unfold dec_step.
      replace (48 + Z.of_N (x mod 10) - 48) with (Z.of_N (x mod 10)) by lia.
      replace (Z.to_nat (Z.of_N (x mod 10))) with (N.to_nat (x mod 10)) by lia.
      rewrite length_app. simpl length.
      rewrite Nat.pow_add_r. simpl Nat.pow.
      rewrite N2Nat.inj_div, N2Nat.inj_mod by lia.
      change (N.to_nat 10) with 10%nat. pose proof (Nat.div_mod_eq (N.to_nat x) 10).
      remember (N.to_nat x / 10)%nat as q. remember (N.to_nat x mod 10)%nat as r.
      remember (10 ^ length D)%nat as P. remember (N.to_nat x) as X. nia.
    + intros _. destruct D; discriminate.
Qed.

Lemma id_text_digits n :
  id_text n <> [] /\ Forall (fun c => is_digit c = true) (id_text n) /\ dec_value (id_text n) = n.
Proof.
  unfold id_text, pretty, pretty_N.
  destruct (decide (N.of_nat n = 0%N)) as [Hz|Hz].
  - split; [discriminate|]. split; [repeat constructor|]. change (dec_value (txt "0")) with 0%nat. lia.
  - destruct (pretty_N_go_digits (N.of_nat n) "") as (D & HD & Hdig & Hval & Hne).
    rewrite HD. cbn [txt list_ascii_of_string map]. rewrite app_nil_r.
    split; [apply Hne; lia|]. split; [exact Hdig|].
    unfold dec_value. change (fun (acc : nat) (c : Z) => (acc * 10 + Z.to_nat (c - 48))%nat) with dec_step.
    rewrite Hval. rewrite Nat2N.id. lia.
Qed.

Lemma run_app_all p u v :
  Forall (fun c => p c = true) u -> run p (u ++ v) = (length u + run p v)%nat.
Proof. induction 1 as [|c u Hc _ IH]; [reflexivity|]. simpl. rewrite Hc, IH. reflexivity. Qed.

Lemma run_stop p c v : p c = false -> run p (c :: v) = O.
Proof. intros H. simpl. rewrite H. reflexivity. Qed.

Lemma first_some_none {A} (f : nat -> option A) l :
  (forall x, In x l -> f x = None) -> first_some f l = None.
Proof.
  induction l as [|x l IH]; intros H; [reflexivity|]. simpl.
  rewrite (H x (or_introl eq_refl)). apply IH. intros y Hy. apply H. right. exact Hy.
Qed.

Lemma first_some_only {A} (f : nat -> option A) l y :
  In y l -> (forall x, In x l -> x <> y -> f x = None) -> first_some f l = f y.
Proof.
  induction l as [|x l IH]; intros Hy H; [destruct Hy|]. simpl.
  destruct (Nat.eq_dec x y) as [->|Hne].
  - destruct (f y) eqn:Hf; [reflexivity|].
    apply first_some_none. intros z Hz.
    destruct (Nat.eq_dec z y) as [->|Hz']; [exact Hf|]. apply H; [right; exact Hz|exact Hz'].
  - rewrite (H x (or_introl eq_refl) Hne). apply IH.
    + destruct Hy as [Hy|Hy]; [congruence|exact Hy].
    + intros z Hz. apply H. right. exact Hz.
Qed.

Lemma in_plus_ends p t i x :
  In x (plus_ends p t i) <-> (i < x <= i + run p (drop i t))%nat.
Proof.
  unfold plus_ends. rewrite in_map_iff. split.
  - intros (n & <- & Hn). apply in_rev, in_seq in Hn. lia.
  - intros Hx. exists (x - i)%nat. split; [lia|]. apply in_rev. rewrite rev_involutive. apply in_seq. lia.
Qed.

Lemma in_star_ends p t i x :
  In x (star_ends p t i) <-> (i <= x <= i + run p (drop i t))%nat.
Proof.
  unfold star_ends. rewrite in_map_iff. split.
  - intros (n & <- & Hn). apply in_rev, in_seq in Hn. lia.
  - intros Hx. exists (x - i)%nat. split; [lia|]. apply in_rev. rewrite rev_involutive. apply in_seq. lia.
Qed.

Lemma pat_prefix_github u : pat_prefix GITHUB_PREFIX (txt "https://github.com/" ++ u) = true.
Proof. reflexivity. Qed.

Lemma digit_not_nl c : is_digit c = true -> not_nl c = true.
Proof.
  unfold is_digit, not_nl, c_nl. intros H. apply andb_true_iff in H as [H1 H2].
  apply Z.leb_le in H1, H2. apply negb_true_iff, Z.eqb_neq. lia.
Qed.

Lemma digit_not_slash c : is_digit c = true -> c <> c_slash.
Proof.
  unfold is_digit, c_slash. intros H. apply andb_true_iff in H as [H1 H2].
  apply Z.leb_le in H1, H2. lia.
Qed.

Lemma run_all p u : Forall (fun c => p c = true) u -> run p u = length u.
Proof. intros H. pose proof (run_app_all p u [] H) as E. rewrite app_nil_r in E. rewrite E. simpl. lia. Qed.

Lemma first_some_down {A} (f : nat -> option A) i m k v :
  (k <= m)%nat -> f (i + k)%nat = Some v ->
  (forall j, (k < j <= m)%nat -> f (i + j)%nat = None) ->
  first_some f (map (fun n => (i + n)%nat) (rev (seq 0 (S m)))) = Some v.
Proof.
  revert k. induction m as [|m IH]; intros k Hk Hv Hn.
  - replace k with O in * by lia. simpl. rewrite Hv. reflexivity.
  - rewrite rev_seq_S. cbn [map first_some].
    destruct (Nat.eq_dec k (S m)) as [->|Hne]; [rewrite Hv; reflexivity|].
    rewrite (Hn (S m)) by lia. apply (IH k); [lia|exact Hv|]. intros j Hj. apply Hn. lia.
Qed.

Lemma drop_app_plus (u v : text) k : drop (length u + k) (u ++ v) = drop k v.
Proof. rewrite drop_app_ge by lia. f_equal. lia. Qed.

Lemma in_drop_in (x : Z) (u : text) k : In x (drop k u) -> In x u.
Proof. intros H. rewrite <- (take_drop k u). apply in_or_app. right. exact H. Qed.

Lemma digits_no_char (D : text) c :
  Forall (fun c => is_digit c = true) D -> is_digit c = false -> ~ In c D.
Proof. intros H Hc Hin. rewrite List.Forall_forall in H. rewrite (H c Hin) in Hc. discriminate. Qed.

(** X4. [extract_github_ids_from_url] inverts [make_github_issue_url]:
    it returns the repository and the issue number the URL was made from,
    for any repository name without a newline. *)
Theorem github_url_round_trip (r : text) (n : nat) :
  Forall (fun c => c <> c_nl) r ->
  extract_github_ids_from_url (make_github_issue_url r n) = (Some r, Some n).
Proof.
  intros Hr. destruct (id_text_digits n) as (Hne & Hdig & Hval).
  unfold extract_github_ids_from_url, make_github_issue_url.
  revert Hne Hdig Hval. generalize (id_text n) as D. intros D Hne Hdig Hval.
  assert (Hm : github_url_match (txt "https://github.com/" ++ r ++ txt "/issues/" ++ D) = Some (r, D)).
  2: { rewrite Hm, Hval. reflexivity. }
  unfold github_url_match. rewrite pat_prefix_github.
  set (t := txt "https://github.com/" ++ r ++ txt "/issues/" ++ D).
  assert (Hnl : Forall (fun c => not_nl c = true) r).
  { eapply Forall_impl; [exact Hr|]. intros c Hc. unfold not_nl. apply negb_true_iff, Z.eqb_neq. exact Hc. }
  assert (HnlD : Forall (fun c => not_nl c = true) D).
  { eapply Forall_impl; [exact Hdig|]. exact digit_not_nl. }
  assert (Hrun : run not_nl (drop 19 t) = (length r + 8 + length D)%nat).
  { change (drop 19 t) with (r ++ txt "/issues/" ++ D).
    rewrite run_app_all by exact Hnl. rewrite (run_app_all _ (txt "/issues/")) by (repeat constructor).
    rewrite run_all by exact HnlD. simpl length. lia. }
  assert (HL : exists d', length D = S d') by (destruct D; [congruence|eexists; reflexivity]).
  destruct HL as [d' HL].
  unfold star_ends. rewrite Hrun.
  apply first_some_down with (k := length r); [lia| |].
  - cbv beta.
    assert (Hd1 : drop (19 + length r) t = txt "/issues/" ++ D).
    { unfold t. change 19%nat with (length (txt "https://github.com/")).
      rewrite drop_app_plus, <- (Nat.add_0_r (length r)), drop_app_plus. reflexivity. }
    rewrite Hd1, prefixb_app_self.
    assert (Hd2 : drop (19 + length r + 8) t = D).
    { unfold t. rewrite !app_assoc.
      replace (19 + length r + 8)%nat
        with (length ((txt "https://github.com/" ++ r) ++ txt "/issues/")) by (rewrite !length_app; simpl; lia).
      apply drop_app_length. }
    unfold plus_ends. rewrite Hd2, run_all by (eapply Forall_impl; [exact Hdig|]; intros c Hc; exact Hc).
    rewrite HL, seq_S, rev_app_distr. cbn [rev app map first_some].
    f_equal. f_equal.
    + change (slice t 19 (19 + length r)) with
        (slice (txt "https://github.com/" ++ r ++ (txt "/issues/" ++ D))
           (length (txt "https://github.com/")) (length (txt "https://github.com/") + length r)).
      apply slice_mid.
    + transitivity (slice (((txt "https://github.com/" ++ r) ++ txt "/issues/") ++ D ++ [])
                      (length ((txt "https://github.com/" ++ r) ++ txt "/issues/"))
                      (length ((txt "https://github.com/" ++ r) ++ txt "/issues/") + length D));
        [|apply slice_mid].
      unfold t. rewrite app_nil_r, !app_assoc, !length_app, HL. reflexivity.
  - intros j Hj. cbv beta.
    assert (Hd : drop (19 + j) t = drop (j - length r) (txt "/issues/" ++ D)).
    { unfold t. replace (19 + j)%nat with (length (txt "https://github.com/") + (length r + (j - length r)))%nat
        by (simpl; lia).
      rewrite !drop_app_plus. reflexivity. }
    rewrite Hd. clear Hd.
    assert (Hk : (j - length r = 1 \/ j - length r = 2 \/ j - length r = 3 \/ j - length r = 4 \/
                  j - length r = 5 \/ j - length r = 6 \/ 7 <= j - length r)%nat) by lia.
    destruct Hk as [->|[->|[->|[->|[->|[->|Hk]]]]]]; try reflexivity.
    rewrite (prefixb_missing _ _ 105); [reflexivity|simpl; tauto|].
    change (txt "/issues/") with (txt "/issues" ++ [47]). rewrite <- app_assoc.
    rewrite drop_app_ge by (simpl; lia).
    intros Hin. apply in_drop_in in Hin. destruct Hin as [Hin|Hin]; [discriminate|].
    revert Hin. apply digits_no_char; [exact Hdig|reflexivity].
Qed.

Lemma drop_app_at (u v : text) n : n = length u -> drop n (u ++ v) = v.
Proof. intros ->. apply drop_app_length. Qed.

Lemma nth_app_at (u v : text) n d : n = length u -> nth n (u ++ v) d = nth 0 v d.
Proof. intros ->. rewrite app_nth2 by lia. rewrite Nat.sub_diag. reflexivity. Qed.

Lemma slice_at (q b r : text) i j :
  i = length q -> j = (length q + length b)%nat -> slice (q ++ b ++ r) i j = b.
Proof. intros -> ->. apply slice_mid. Qed.

Lemma prefixb_slash (k k' X : text) :
  Forall (fun c => c <> c_slash) k -> Forall (fun c => c <> c_slash) k' ->
  prefixb (k ++ [c_slash]) (k' ++ [c_slash] ++ X) = true -> k = k'.
Proof.
  intros Hk. revert k'. induction Hk as [|a k Ha Hk IH]; intros k' Hk' H.
  - destruct Hk' as [|b k' Hb _]; [reflexivity|].
    cbn [app prefixb] in H. apply andb_true_iff in H as [H _]. apply Z.eqb_eq in H. congruence.
  - destruct Hk' as [|b k' Hb Hk'].
    + cbn [app prefixb] in H. apply andb_true_iff in H as [H _]. apply Z.eqb_eq in H. congruence.
    + cbn [app prefixb] in H. apply andb_true_iff in H as [H1 H2]. apply Z.eqb_eq in H1.
      subst b. f_equal. apply IH; assumption.
Qed.

Lemma prefixb_head_ne (c : Z) (p u : text) a :
  head u = Some a -> a <> c -> prefixb (c :: p) u = false.
Proof.
  destruct u as [|b u]; [discriminate|]. intros [= ->] Hne. cbn [prefixb].
  apply andb_false_iff. left. apply Z.eqb_neq. congruence.
Qed.

Lemma plus_ends_not_slash_run (u v : text) :
  Forall (fun c => c <> c_slash) u -> run not_slash (u ++ c_slash :: v) = length u.
Proof.
  intros H. rewrite run_app_all.
  - rewrite run_stop by reflexivity. lia.
  - eapply Forall_impl; [exact H|]. intros c Hc. unfold not_slash. apply negb_true_iff, Z.eqb_neq. exact Hc.
Qed.

(** The groups of [ISSUE_RE] and [PR_RE] on a GitHub URL [https://github.com/o/nm/kind'/D]. *)
Lemma repo_number_match_url (kind kind' o nm D : text) :
  o <> [] -> nm <> [] -> D <> [] ->
  Forall (fun c => c <> c_slash) o -> Forall (fun c => c <> c_slash) nm ->
  Forall (fun c => c <> c_slash) kind -> Forall (fun c => c <> c_slash) kind' ->
  Forall (fun c => is_digit c = true) D ->
  repo_number_match kind
    (txt "https://github.com/" ++ o ++ [c_slash] ++ nm ++ [c_slash] ++ kind' ++ [c_slash] ++ D)
  = if bool_decide (kind = kind') then Some (o ++ [c_slash] ++ nm, D) else None.
Proof.
  intros Ho Hnm HD Hso Hsn Hsk Hsk' Hdig.
  unfold repo_number_match. rewrite pat_prefix_github.
  set (G := txt "https://github.com/").
  set (t := G ++ o ++ [c_slash] ++ nm ++ [c_slash] ++ kind' ++ [c_slash] ++ D).
  assert (HG : length G = 19%nat) by reflexivity.
  assert (Hr1 : run not_slash (drop 19 t) = length o).
  { unfold t. rewrite drop_app_at by (symmetry; exact HG). apply plus_ends_not_slash_run. exact Hso. }
  assert (Ho1 : (1 <= length o)%nat) by (destruct o; [congruence|simpl; lia]).
  assert (Hn1 : (1 <= length nm)%nat) by (destruct nm; [congruence|simpl; lia]).
  rewrite (first_some_only _ _ (19 + length o)).
  2: { apply in_plus_ends. rewrite Hr1. lia. }
  2: { intros x Hx Hne. apply in_plus_ends in Hx. rewrite Hr1 in Hx.
       assert (Hc : nth_char t x <> c_slash).
       { unfold nth_char, t. rewrite app_nth2 by lia. rewrite HG, app_nth1 by lia.
         rewrite List.Forall_forall in Hso. apply Hso, nth_In. lia. }
       apply Z.eqb_neq in Hc. rewrite Hc. reflexivity. }
  cbv beta.
  assert (Hs : nth_char t (19 + length o) = c_slash).
  { unfold nth_char, t. rewrite app_assoc, nth_app_at by (rewrite length_app; lia). reflexivity. }
  rewrite Hs, Z.eqb_refl.
  set (y2 := (S (19 + length o) + length nm)%nat).
  assert (Hr2 : run not_slash (drop (S (19 + length o)) t) = length nm).
  { unfold t. rewrite (app_assoc G), (app_assoc (G ++ o)), drop_app_at
      by (rewrite !length_app; simpl; lia).
    apply plus_ends_not_slash_run. exact Hsn. }
  rewrite (first_some_only _ _ y2).
  2: { apply in_plus_ends. rewrite Hr2. unfold y2. lia. }
  2: { intros x Hx Hne. apply in_plus_ends in Hx. rewrite Hr2 in Hx. unfold y2 in Hne.
       assert (Hd : drop x t = drop (x - S (19 + length o)) nm ++ [c_slash] ++ kind' ++ [c_slash] ++ D).
       { unfold t. rewrite (app_assoc G), (app_assoc (G ++ o)).
         assert (Hx' : x = (length ((G ++ o) ++ [c_slash]) + (x - S (19 + length o)))%nat)
           by (rewrite !length_app; simpl; lia).
         rewrite Hx' at 1.
         rewrite drop_app_plus, drop_app_le by lia. reflexivity. }
       destruct (lookup_lt_is_Some_2 nm (x - S (19 + length o))) as [a Ha]; [lia|].
       rewrite Hd, (drop_S _ _ _ Ha).
       change ([c_slash] ++ kind ++ [c_slash]) with (c_slash :: kind ++ [c_slash]).
       rewrite (prefixb_head_ne _ _ _ a); [reflexivity|reflexivity|].
       exact (Forall_lookup_1 _ _ _ _ Hsn Ha). }
  cbv beta.
  assert (Hd2 : drop y2 t = [c_slash] ++ kind' ++ [c_slash] ++ D).
  { unfold t, y2. rewrite (app_assoc G), (app_assoc (G ++ o)), (app_assoc ((G ++ o) ++ [c_slash])).
    apply drop_app_at. rewrite !length_app. simpl. lia. }
  rewrite Hd2.
  case_bool_decide as Hk.
  - subst kind'.
    replace ([c_slash] ++ kind ++ [c_slash] ++ D) with (([c_slash] ++ kind ++ [c_slash]) ++ D)
      by (rewrite <- !app_assoc; reflexivity).
    rewrite prefixb_app_self.
    set (k := (y2 + length kind + 2)%nat).
    assert (Hd3 : drop k t = D).
    { unfold t, k, y2. rewrite (app_assoc G), (app_assoc (G ++ o)), (app_assoc ((G ++ o) ++ [c_slash])),
        (app_assoc (((G ++ o) ++ [c_slash]) ++ nm)), (app_assoc ((((G ++ o) ++ [c_slash]) ++ nm) ++ [c_slash])),
        (app_assoc (((((G ++ o) ++ [c_slash]) ++ nm) ++ [c_slash]) ++ kind)).
      apply drop_app_at. rewrite !length_app. simpl. lia. }
    assert (HL : exists d', length D = S d') by (destruct D; [congruence|eexists; reflexivity]).
    destruct HL as [d' HL].
    unfold plus_ends. rewrite Hd3, run_all by exact Hdig.
    rewrite HL, seq_S, rev_app_distr. cbn [rev app map first_some].
    assert (Hlt : length t = (k + (1 + d'))%nat).
    { unfold t, k, y2. rewrite !length_app, HL. simpl. lia. }
    unfold dollar. rewrite Hlt, Nat.eqb_refl. cbn [orb].
    f_equal. f_equal.
    + change (o ++ c_slash :: nm) with (o ++ [c_slash] ++ nm).
      replace t with (G ++ (o ++ [c_slash] ++ nm) ++ ([c_slash] ++ kind ++ [c_slash] ++ D))
        by (unfold t; rewrite <- !app_assoc; reflexivity).
      apply slice_at; [symmetry; exact HG|]. rewrite HG, !length_app. unfold y2. simpl. lia.
    + replace t with ((G ++ o ++ [c_slash] ++ nm ++ [c_slash] ++ kind ++ [c_slash]) ++ D ++ [])
        by (unfold t; rewrite app_nil_r, <- !app_assoc; reflexivity).
      apply slice_at.
      * unfold k, y2. rewrite !length_app. simpl. lia.
      * rewrite HL, !length_app. unfold k, y2. simpl. lia.
  - cbn [app prefixb]. rewrite Z.eqb_refl. cbn [andb].
    destruct (prefixb (kind ++ [c_slash]) (kind' ++ c_slash :: D)) eqn:E; [|reflexivity].
    apply prefixb_slash in E; [contradiction|exact Hsk|exact Hsk'].
Qed.

Lemma no_slash_issues : Forall (fun c => c <> c_slash) (txt "issues").
Proof. change (txt "issues") with [105; 115; 115; 117; 101; 115]. repeat constructor; unfold c_slash; lia. Qed.

Lemma no_slash_pull : Forall (fun c => c <> c_slash) (txt "pull").
Proof. change (txt "pull") with [112; 117; 108; 108]. repeat constructor; unfold c_slash; lia. Qed.

(** X5. [format_link] without link text turns the URL of an issue or of
    a pull request of a repository [owner/name] into [#id] when that is the
    configured repository, and into [owner/name#id] otherwise. *)
Theorem format_link_github_refs (repository o nm : text) (n : nat) (link_text : option text) :
  o <> [] -> nm <> [] ->
  Forall (fun c => c <> c_slash) o -> Forall (fun c => c <> c_slash) nm ->
  link_text = None \/ link_text = Some [] ->
  gh_format_link repository (make_github_issue_url (o ++ [c_slash] ++ nm) n) link_text
    = (if bool_decide (o ++ [c_slash] ++ nm = repository) then txt "#" ++ id_text n
       else (o ++ [c_slash] ++ nm) ++ txt "#" ++ id_text n) /\
  gh_format_link repository (get_pull_request_url (o ++ [c_slash] ++ nm) n) link_text
    = (if bool_decide (o ++ [c_slash] ++ nm = repository) then txt "#" ++ id_text n
       else (o ++ [c_slash] ++ nm) ++ txt "#" ++ id_text n).
Proof.
  intros Ho Hnm Hso Hsn Hlt. destruct (id_text_digits n) as (Hne & Hdig & Hval).
  assert (Hi : make_github_issue_url (o ++ [c_slash] ++ nm) n
               = txt "https://github.com/" ++ o ++ [c_slash] ++ nm ++ [c_slash] ++ txt "issues" ++
                 [c_slash] ++ id_text n)
    by (unfold make_github_issue_url; rewrite <- !app_assoc; reflexivity).
  assert (Hp : get_pull_request_url (o ++ [c_slash] ++ nm) n
               = txt "https://github.com/" ++ o ++ [c_slash] ++ nm ++ [c_slash] ++ txt "pull" ++
                 [c_slash] ++ id_text n)
    by (unfold get_pull_request_url; rewrite <- !app_assoc; reflexivity).
  assert (Hm : forall url, gh_format_link repository url link_text
                           = match ISSUE_RE_match url with
                             | Some g => short_ref repository g
                             | None => match PR_RE_match url with
                                       | Some g => short_ref repository g
                                       | None => match user_profile_match url with
                                                 | Some u => txt "@" ++ u
                                                 | None => txt "<" ++ url ++ txt ">"
                                                 end
                                       end
                             end)
    by (intros url; destruct Hlt as [-> | ->]; reflexivity).
  rewrite !Hm, Hi, Hp. unfold ISSUE_RE_match, PR_RE_match.
  rewrite !repo_number_match_url
    by first [exact Hne | exact Hnm | exact Ho | exact Hso | exact Hsn | exact Hdig
             | exact no_slash_issues | exact no_slash_pull].
  rewrite (bool_decide_eq_true_2 (txt "issues" = txt "issues")) by reflexivity.
  rewrite (bool_decide_eq_false_2 (txt "issues" = txt "pull")) by (vm_compute; discriminate).
  rewrite (bool_decide_eq_true_2 (txt "pull" = txt "pull")) by reflexivity.
  unfold short_ref. rewrite Hval. split; reflexivity.
Qed.



Lemma b32_group_safe bs : Forall b32_safe (b32_group bs).
Proof.
  unfold b32_group. apply List.Forall_forall. intros c Hc.
  apply in_map_iff in Hc as (k & <- & _).
  match goal with |- b32_safe (nth ?n _ _) => destruct (nth_in_or_default n B32_ALPHABET 0) as [H|H] end.
  - assert (HA : Forall b32_safe B32_ALPHABET)
      by (vm_compute; repeat constructor; discriminate).
    rewrite List.Forall_forall in HA. apply HA, H.
  - rewrite H. unfold b32_safe, c_nl, c_rbrace. lia.
Qed.

Lemma b32_groups_safe n bs : Forall b32_safe (b32_groups n bs).
Proof.
  revert bs. induction n as [|n IH]; intros bs; cbn [b32_groups]; [constructor|].
  apply Forall_app. split; [apply b32_group_safe|apply IH].
Qed.

Lemma b32encode_safe j : Forall b32_safe (b32encode j).
Proof.
  unfold b32encode. apply Forall_app. split.
  - apply Forall_take. apply b32_groups_safe.
  - apply Forall_replicate. unfold b32_safe, c_pad, c_nl, c_rbrace. lia.
Qed.

Lemma b32encode_no_nl_brace j : Forall (fun c => c <> c_nl /\ c <> c_rbrace) (b32encode j).
Proof. eapply Forall_impl; [apply b32encode_safe|]. intros c (H1 & H2 & _). tauto. Qed.

Lemma take_metadata_app prefix (body b rest : text) :
  contains prefix body = false -> overlap_free prefix prefix = true ->
  Forall (fun c => c <> c_nl /\ c <> c_rbrace) b ->
  take_metadata prefix (body ++ prefix ++ b ++ METADATA_SUFFIX ++ rest) = Some (Some b, body ++ rest).
Proof.
  intros Hc Ho Hb. unfold take_metadata.
  change METADATA_SUFFIX with [c_rbrace].
  set (t := body ++ prefix ++ b ++ [c_rbrace] ++ rest).
  destruct (brace_ends_app b rest (length body + length prefix) Hb) as [es Hes].
  assert (Hs : search (metadata_re prefix) t 0
               = Some (length body, S (length body + length prefix + length b))).
  { apply search_first with (es := es).
    - unfold t. rewrite !length_app. lia.
    - intros i Hi. cbn [rx_match metadata_re]. unfold metadata_match.
      unfold t. rewrite (no_early prefix body _ Hc (overlap_free_straddle prefix body prefix _ Ho) i)
        by lia.
      rewrite andb_false_r. reflexivity.
    - cbn [rx_match metadata_re]. unfold metadata_match.
      assert (Hd : drop (length body) t = prefix ++ b ++ [c_rbrace] ++ rest)
        by (unfold t; apply drop_app_length).
      rewrite Hd, prefixb_app_self.
      replace (Nat.leb (length body) (length t)) with true
        by (symmetry; apply Nat.leb_le; unfold t; rewrite length_app; lia).
      cbn [andb].
      assert (Hd2 : drop (length body + length prefix) t = b ++ c_rbrace :: rest)
        by (unfold t; rewrite drop_app_plus, drop_app_length; reflexivity).
      rewrite Hd2, Hes. reflexivity. }
  rewrite Hs.
  assert (Hsl : slice t (length body) (S (length body + length prefix + length b))
                = prefix ++ b ++ [c_rbrace]).
  { replace t with (body ++ (prefix ++ b ++ [c_rbrace]) ++ rest)
      by (unfold t; rewrite <- !app_assoc; reflexivity).
    apply slice_at; [reflexivity|]. rewrite !length_app. simpl. lia. }
  rewrite Hsl. unfold metadata_base32.
  change METADATA_SUFFIX with [c_rbrace].
  rewrite prefixb_app_self.
  replace (rev (prefix ++ b ++ [c_rbrace])) with (c_rbrace :: rev (prefix ++ b))
    by (rewrite (app_assoc prefix b), (rev_app_distr (prefix ++ b)); reflexivity).
  cbn [rev app prefixb]. rewrite Z.eqb_refl. cbn [andb].
  assert (Hb' : slice (prefix ++ b ++ [c_rbrace]) (length prefix)
                  (length (prefix ++ b ++ [c_rbrace]) - length [c_rbrace]) = b).
  { apply slice_at; [reflexivity|]. rewrite !length_app. simpl. lia. }
  rewrite Hb'. f_equal. f_equal.
  unfold t. rewrite take_app_length.
  replace (S (length body + length prefix + length b))
    with (length (body ++ prefix ++ b ++ [c_rbrace])) by (rewrite !length_app; simpl; lia).
  f_equal. replace (body ++ prefix ++ b ++ [c_rbrace] ++ rest)
    with ((body ++ prefix ++ b ++ [c_rbrace]) ++ rest) by (rewrite <- !app_assoc; reflexivity).
  apply drop_app_length.
Qed.

Lemma take_metadata_none prefix (t : text) :
  contains prefix t = false -> take_metadata prefix t = Some (None, t).
Proof.
  intros Hc. unfold take_metadata. rewrite search_none; [reflexivity|].
  intros i _. cbn [rx_match metadata_re]. unfold metadata_match.
  destruct (Nat.leb i (length t)) eqn:Hi; [|reflexivity].
  apply Nat.leb_le in Hi. rewrite (contains_elim prefix t i Hc Hi). reflexivity.
Qed.

Lemma meta_prefix_facts :
  overlap_free ISSUE_METADATA_PREFIX ISSUE_METADATA_PREFIX = true /\
  overlap_free COMMENT_METADATA_PREFIX COMMENT_METADATA_PREFIX = true /\
  overlap_free COMMENT_METADATA_PREFIX ISSUE_METADATA_PREFIX = true /\
  tail_free ISSUE_METADATA_PREFIX COMMENT_METADATA_PREFIX = true /\
  contains COMMENT_METADATA_PREFIX ISSUE_METADATA_PREFIX = false.
Proof. vm_compute. repeat split. Qed.

Lemma take_issue_metadata (body : text) (m : metadata_json) :
  contains ISSUE_METADATA_PREFIX body = false ->
  take_metadata ISSUE_METADATA_PREFIX (body ++ encode_if m ISSUE_METADATA_PREFIX)
  = Some (option_map b32encode m, body).
Proof.
  intros Hc. destruct m as [j|]; cbn [encode_if option_map].
  - unfold encode_metadata. rewrite <- (app_nil_r METADATA_SUFFIX).
    rewrite take_metadata_app; [rewrite app_nil_r; reflexivity|exact Hc|apply meta_prefix_facts|].
    apply b32encode_no_nl_brace.
  - rewrite app_nil_r. apply take_metadata_none. exact Hc.
Qed.


(** X6. [get_issue] reads back what [get_raw_issue_fields] wrote into a
    description: the base32 text of the metadata JSON ([None] for an empty
    metadata) and the body, when the body holds no issue metadata prefix. *)
Theorem issue_metadata_round_trip (body : text) (m : metadata_json) :
  contains ISSUE_METADATA_PREFIX body = false ->
  issue_description (raw_description body m) = Some (option_map b32encode m, body).
Proof. intros Hc. unfold issue_description, raw_description. apply take_issue_metadata. exact Hc. Qed.



Lemma bind_some {A B} (m : M A) (k : A -> M B) st st' x :
  bind m k st = (st', Some x) -> exists st1 a, m st = (st1, Some a) /\ k a st1 = (st', Some x).
Proof. unfold bind. destruct (m st) as [st1 [a|]]; [eauto|discriminate]. Qed.


Lemma un_ret {A} (a : A) : unchanged (ret a).
Proof. intros st. reflexivity. Qed.

Lemma un_raise {A} : unchanged (@raise A).
Proof. intros st. reflexivity. Qed.

Lemma un_lift {A} (o : option A) : unchanged (lift o).
Proof. destruct o; intros st; reflexivity. Qed.

Lemma un_bind {A B} (m : M A) (k : A -> M B) :
  unchanged m -> (forall a, unchanged (k a)) -> unchanged (bind m k).
Proof.
  intros Hm Hk st. unfold bind. specialize (Hm st).
  destruct (m st) as [st1 [a|]]; simpl in *; subst; [apply Hk|reflexivity].
Qed.

Lemma un_try {A} (m : M A) : unchanged m -> unchanged (try_ m).
Proof. intros Hm st. unfold try_. specialize (Hm st). destruct (m st). exact Hm. Qed.

Lemma un_get_issue s id : unchanged (get_issue s id).
Proof. intros st. reflexivity. Qed.

Lemma un_find_issues s m : unchanged (find_issues s m).
Proof. intros st. reflexivity. Qed.

Ltac un_step :=
  match goal with
  | |- unchanged (bind _ _) => apply un_bind; [|intros ?]
  | |- unchanged (try_ _) => apply un_try
  | |- unchanged (ret _) => apply un_ret
  | |- unchanged raise => apply un_raise
  | |- unchanged (lift _) => apply un_lift
  | |- unchanged (get_issue _ _) => apply un_get_issue
  | |- unchanged (find_issues _ _) => apply un_find_issues
  | |- unchanged (if ?b then _ else _) => destruct b eqn:?
  | |- unchanged (match ?x with _ => _ end) => destruct x
  end.

Section DryRun.
Context `{Externals}.

Lemma un_create_tracking_comment src mirror : unchanged (create_tracking_comment true src mirror).
Proof. unfold create_tracking_comment. apply un_ret. Qed.

Lemma un_run_each f l : (forall x, unchanged (f x)) -> unchanged (run_each f l).
Proof.
  intros Hf. induction l as [|x l IH]; simpl; [apply un_ret|].
  apply un_bind; [apply un_try, Hf|intros _; exact IH].
Qed.

Lemma un_sync_comments cfg one two : unchanged (sync_comments cfg true one two).
Proof.
  unfold sync_comments. destruct (_ && _); [apply un_ret|].
  apply un_run_each. intros [[iss c] oth]. unfold sync_one_comment. repeat un_step.
Qed.

Theorem dry_run_issue_unchanged cfg u : unchanged (perform_sync_issue cfg true u).
Proof.
  unfold perform_sync_issue. cbn [negb]. repeat un_step;
    try (match goal with Hf : _ && false = true |- _ => rewrite andb_false_r in Hf; discriminate Hf end);
    first [apply un_create_tracking_comment|apply un_sync_comments].
Qed.

End DryRun.

Lemma un_sync_loop process us seen logged :
  (forall u, unchanged (process u)) -> unchanged (sync_loop process us seen logged).
Proof.
  intros Hp. revert seen logged. induction us as [|u us IH]; intros seen logged; simpl; [apply un_ret|].
  destruct (bool_decide _); [apply IH|].
  apply un_bind; [apply un_try, Hp|]. intros [o|]; [destruct o|]; apply IH.
Qed.

Section Creation.
Context `{Externals}.

(** X8. In dry-run mode, [_perform_sync_issue] and [perform_sync] leave
    both services as they were: no issue, comment or call is recorded. *)
Theorem dry_run_changes_nothing cfg :
  (forall u st, fst (perform_sync_issue cfg true u st) = st) /\
  (forall min_updated_at st, fst (perform_sync cfg true min_updated_at st) = st).
Proof.
  split; [intros u; apply dry_run_issue_unchanged|].
  intros m. unfold perform_sync.
  repeat (apply un_bind; [first [apply un_find_issues|apply un_sync_loop, dry_run_issue_unchanged]|intros ?]).
  apply un_ret.
Qed.

(** The bot-owned mirror [create_issue] builds from [make_mirror_issue]. *)
Lemma create_mirror_spec cfg src f s st st' mi :
  make_mirror_issue cfg src = Some f ->
  create_issue (get_project cfg) bot_user s f st = (st', Some mi) ->
  i_source mi = s /\ i_is_bot mi = true /\ project mi = get_project cfg s /\
  i_metadata mi = f_metadata f /\ title mi = f_title f /\
  calls st' = calls st ++ [CreateIssue s].
Proof.
  intros _ Hc. unfold create_issue in Hc. destruct (f_title f) eqn:Ht; [discriminate|].
  injection Hc as <- <-. cbn. repeat split; reflexivity.
Qed.

(** X9. When [_perform_sync_issue] returns a new mirror for an unlinked
    issue, the run was not a dry run; the mirror is a bot issue of the other
    service, in its configured project, whose metadata points back at the
    issue; and the calls made are the creation, the tracking comment on the
    issue, then anything but another creation. *)
Theorem unlinked_issue_creation cfg dry_run u st st' mi :
  truthy_id (mirror_id u) = false -> truthy_id (github_issue_id u) = false ->
  perform_sync_issue cfg dry_run u st = (st', Some (Some mi)) ->
  dry_run = false /\
  i_source mi = other (i_source u) /\ i_is_bot mi = true /\
  project mi = get_project cfg (other (i_source u)) /\
  mirror_id mi = Some (issue_id u) /\ mirror_project mi = Some (project u) /\
  exists l, calls st' = calls st ++ CreateIssue (other (i_source u))
                                   :: CreateComment (i_source u) (issue_id u) :: l /\
            forall s, ~ In (CreateIssue s) l.
Proof.
  intros Hm Hg Hp. unfold perform_sync_issue in Hp. rewrite Hm, Hg in Hp. cbn [orb] in Hp.
  destruct (_ && _); [|discriminate].
  apply bind_some in Hp as (st1 & f & Hf & Hp).
  destruct (make_mirror_issue cfg u) as [f'|] eqn:Hmk; [|discriminate].
  injection Hf as <- <-.
  destruct dry_run; [discriminate|]. cbn [negb] in Hp.
  apply bind_some in Hp as (st2 & mi' & Hc & Hp).
  destruct (create_mirror_spec cfg u _ _ st st2 mi' Hmk Hc) as (Hs & Hb & Hpr & Hmeta & _ & Hcalls).
  apply bind_some in Hp as (st3 & [] & Ht & Hp).
  unfold create_tracking_comment in Ht. cbn [negb] in Ht.
  apply bind_some in Ht as (st3' & cm & Hcc & Ht). injection Ht as <-.
  unfold create_comment in Hcc. injection Hcc as <- _.
  match type of Hp with ?m ?s0 = _ =>
    assert (Hk : no_create m)
      by (apply nc_bind; [apply nc_lift|]; intros ups;
          apply nc_bind; [repeat nc_step|intros _];
          apply nc_bind; [apply nc_sync_comments|intros _]; apply nc_ret);
    destruct (Hk s0) as (l & Hl & Hn)
  end.
  pose proof Hp as Hr.
  apply bind_some in Hr as (? & ups & _ & Hr). apply bind_some in Hr as (? & ? & _ & Hr).
  apply bind_some in Hr as (? & ? & _ & Hr). injection Hr as _ ->.
  rewrite Hp in Hl. cbn [fst] in Hl.
  unfold mirror_id, mirror_project. rewrite Hmeta.
  unfold make_mirror_issue in Hmk.
  destruct (make_mirror_issue_body cfg u), (body_hash u), (title_hash u); try discriminate.
  injection Hmk as <-. cbn.
  repeat split; try assumption.
  exists l. split; [|exact Hn].
  rewrite Hl, calls_write, Hcalls, <- !app_assoc. reflexivity.
Qed.

(** X10. A mirror just created from [make_mirror_issue] agrees with its
    source: [make_issue_updates] proposes no title, body or metadata update
    on either side. *)
Theorem fresh_mirror_in_sync cfg src f st st' mi :
  i_is_bot src = false ->
  make_mirror_issue cfg src = Some f ->
  create_issue (get_project cfg) bot_user (other (i_source src)) f st = (st', Some mi) ->
  exists u1 u2, make_issue_updates cfg src mi = Some (u1, u2) /\
    u_title u1 = None /\ u_body u1 = None /\ u_metadata u1 = None /\
    u_title u2 = None /\ u_body u2 = None /\ u_metadata u2 = None.
Proof.
  intros Hs Hf Hc.
  destruct (create_mirror_spec cfg src f _ st st' mi Hf Hc) as (_ & Hb & _ & Hmeta & _ & _).
  unfold make_mirror_issue in Hf.
  destruct (make_mirror_issue_body cfg src), (body_hash src) as [bh|] eqn:Hbh,
    (title_hash src) as [th|] eqn:Hth; try discriminate.
  injection Hf as <-.
  assert (Hmt : title_hash mi = Some th) by (unfold title_hash; rewrite Hb, Hmeta; reflexivity).
  assert (Hmb : body_hash mi = Some bh) by (unfold body_hash; rewrite Hb, Hmeta; reflexivity).
  assert (Hcu : mirror_content_updates cfg src mi = Some (None, None, None)).
  { unfold mirror_content_updates. rewrite Hmt, Hth, Hmb, Hbh.
    rewrite !bool_decide_eq_true_2 by reflexivity. reflexivity. }
  unfold make_issue_updates. rewrite Hs, Hb. cbn [orb]. rewrite Hcu. cbn [option_map].
  destruct (make_field_updates cfg Bool.eqb is_open src mi SYNC_STATUS).
  destruct (make_field_updates cfg set_eqb milestones src mi SYNC_MILESTONES).
  destruct (make_labels_updates cfg src mi).
  destruct (bool_decide (i_source src = JIRA)); (eexists _, _; split; [reflexivity|]); cbn;
    repeat split.
Qed.

(** X11. Once [_make_labels_updates] is applied, both issues carry the same
    labels outside the two sync label sets, whichever side won. *)
Theorem labels_agree_outside_sync_labels cfg one two l1 l2 :
  sync_feature_enabled cfg (i_source one) SYNC_LABELS
    || sync_feature_enabled cfg (i_source two) SYNC_LABELS = true ->
  make_labels_updates cfg one two = (l1, l2) ->
  let s1 := sync_label_set (sync (get_source_config cfg (i_source one))) in
  let s2 := sync_label_set (sync (get_source_config cfg (i_source two))) in
  set_default (labels one) l1 ∖ (s1 ∪ s2) = set_default (labels two) l2 ∖ (s1 ∪ s2).
Proof.
  intros He Hl s1 s2. unfold make_labels_updates in Hl. fold s1 s2 in Hl.
  destruct (sync_feature_enabled cfg (i_source one) SYNC_LABELS),
    (sync_feature_enabled cfg (i_source two) SYNC_LABELS); try discriminate;
    try destruct (Nat.ltb (updated_at two) (updated_at one));
    cbn in Hl; unfold set_eqb in Hl;
    repeat case_bool_decide; injection Hl as <- <-; cbn; set_solver.
Qed.

(** X12. A filter with no minimum date and no include or exclude sets
    accepts an issue exactly when it is open or [open_only] is off. *)
Theorem accept_without_criteria fc i :
  min_created_at fc = None ->
  include_issue_types fc = ∅ -> exclude_issue_types fc = ∅ ->
  include_components fc = ∅ -> exclude_components fc = ∅ ->
  include_labels fc = ∅ -> exclude_labels fc = ∅ ->
  accept fc i = negb (open_only fc) || is_open i.
Proof.
  intros H1 H2 H3 H4 H5 H6 H7. unfold accept.
  rewrite H1, H2, H3, H4, H5, H6, H7, bool_decide_eq_true_2 by reflexivity.
  destruct (open_only fc), (is_open i); reflexivity.
Qed.

End Creation.


Import Fixtures Scenarios.



(** A quote holding a single space. *)
Lemma blank_quote_raises_witness :
  gh_format_body (fun t => t) (txt "{quote}" ++ txt " " ++ txt "{quote}") = None.
Proof.
  apply (blank_quote_raises (fun t => t) (txt " ")).
  - discriminate.
  - vm_compute. repeat constructor; intros Hc; discriminate Hc.
Defined.

(** Issue 12 of [org/repo]. *)
Lemma github_url_round_trip_witness :
  extract_github_ids_from_url (make_github_issue_url (txt "org/repo") 12)
  = (Some (txt "org/repo"), Some 12%nat).
Proof.
  apply (github_url_round_trip (txt "org/repo") 12).
  vm_compute. repeat constructor; intros Hc; discriminate Hc.
Defined.

(** Issue and pull request 12 of [org/repo], seen from [other/x]. *)
Lemma format_link_github_refs_witness :
  gh_format_link (txt "other/x") (make_github_issue_url (txt "org" ++ [c_slash] ++ txt "repo") 12) None
    = (if bool_decide (txt "org" ++ [c_slash] ++ txt "repo" = txt "other/x") then txt "#" ++ id_text 12
       else (txt "org" ++ [c_slash] ++ txt "repo") ++ txt "#" ++ id_text 12) /\
  gh_format_link (txt "other/x") (get_pull_request_url (txt "org" ++ [c_slash] ++ txt "repo") 12) None
    = (if bool_decide (txt "org" ++ [c_slash] ++ txt "repo" = txt "other/x") then txt "#" ++ id_text 12
       else (txt "org" ++ [c_slash] ++ txt "repo") ++ txt "#" ++ id_text 12).
Proof.
  apply (format_link_github_refs (txt "other/x") (txt "org") (txt "repo") 12 None).
  - discriminate.
  - discriminate.
  - vm_compute. repeat constructor; intros Hc; discriminate Hc.
  - vm_compute. repeat constructor; intros Hc; discriminate Hc.
  - left. reflexivity.
Defined.

(** A description with the metadata [{"a": 1}]. *)
Lemma issue_metadata_round_trip_witness :
  issue_description (raw_description (txt "text") (Some json_a1))
  = Some (option_map b32encode (Some json_a1), txt "text").
Proof.
  apply (issue_metadata_round_trip (txt "text") (Some json_a1)). vm_compute. reflexivity.
Defined.


(** The unlinked Jira issue [J_new] under [cfg_create]. *)
Lemma unlinked_issue_creation_witness :
  exists st' mi, perform_sync_issue cfg_create false J_new st0 = (st', Some (Some mi)) /\
  false = false /\
  i_source mi = other (i_source J_new) /\ i_is_bot mi = true /\
  project mi = get_project cfg_create (other (i_source J_new)) /\
  mirror_id mi = Some (issue_id J_new) /\ mirror_project mi = Some (project J_new) /\
  exists l, calls st' = calls st0 ++ CreateIssue (other (i_source J_new))
                                   :: CreateComment (i_source J_new) (issue_id J_new) :: l /\
            forall s, ~ In (CreateIssue s) l.
Proof.
  destruct (perform_sync_issue cfg_create false J_new st0) as [st' [[mi|]|]] eqn:E;
    [|vm_compute in E; discriminate E..].
  exists st', mi. split; [reflexivity|].
  apply (unlinked_issue_creation cfg_create false J_new st0 st' mi); [vm_compute; reflexivity|vm_compute; reflexivity|exact E].
Defined.

(** The mirror of [J] under [cfg0], created on [st0]. *)
Lemma fresh_mirror_in_sync_witness :
  exists f st' mi, make_mirror_issue cfg0 J = Some f /\
  create_issue (get_project cfg0) bot_user (other (i_source J)) f st0 = (st', Some mi) /\
  exists u1 u2, make_issue_updates cfg0 J mi = Some (u1, u2) /\
    u_title u1 = None /\ u_body u1 = None /\ u_metadata u1 = None /\
    u_title u2 = None /\ u_body u2 = None /\ u_metadata u2 = None.
Proof.
  destruct (make_mirror_issue cfg0 J) as [f|] eqn:Ef; [|vm_compute in Ef; discriminate Ef].
  destruct (create_issue (get_project cfg0) bot_user (other (i_source J)) f st0) as [st' [mi|]] eqn:Ec.
  2: { exfalso. vm_compute in Ef. injection Ef as <-. vm_compute in Ec. discriminate Ec. }
  exists f, st', mi. split; [reflexivity|]. split; [exact Ec|].
  apply (fresh_mirror_in_sync cfg0 J f st0 st' mi); [reflexivity|exact Ef|exact Ec].
Defined.

(** The labels of [J] and of its mirror [G] under [cfg0]. *)
Lemma labels_agree_outside_sync_labels_witness :
  exists l1 l2, make_labels_updates cfg0 J G = (l1, l2) /\
  let s1 := sync_label_set (sync (get_source_config cfg0 (i_source J))) in
  let s2 := sync_label_set (sync (get_source_config cfg0 (i_source G))) in
  set_default (labels J) l1 ∖ (s1 ∪ s2) = set_default (labels G) l2 ∖ (s1 ∪ s2).
Proof.
  destruct (make_labels_updates cfg0 J G) as [l1 l2] eqn:E.
  exists l1, l2. split; [reflexivity|].
  apply (labels_agree_outside_sync_labels cfg0 J G l1 l2); [vm_compute; reflexivity|exact E].
Defined.

(** The default filter on [J]. *)
Lemma accept_without_criteria_witness :
  accept default_filter J = negb (open_only default_filter) || is_open J.
Proof. apply (accept_without_criteria default_filter J); reflexivity. Defined.

End Extras.
